(** * pagodo: the dork search engine of the PyQt6 front-end

    A shallow embedding of [pagodo_gui_pyqt6.py] (the search thread
    [DorkSearchThread], [ParameterExtractor] and the result handlers of
    [PagodoGUI]) and of the start guard of [pagodo_gui.py], followed by the
    properties of the search orchestration; then the GHDB scraper
    [DorkScraperThread], the dork files of the window and the prompts and
    menu of [pagodo_cli.py], with their properties.

    Python [str] values are modelled as [string] (sequences of bytes, the
    UTF-8 encoding of the text); Python [int] as [Z]; the floats drawn by
    [random.uniform] as exact rationals [Q] (rounding is not modelled). *)

From Stdlib Require Import ZArith QArith List Sorted Bool Ascii String Lia Lqa Arith.
From Stdlib Require Import Numbers.DecimalString Numbers.DecimalPos.
Import ListNotations.

Close Scope Q_scope.
Open Scope string_scope.
Open Scope list_scope.

(** ** Python string primitives *)

Module Py.

(** [str(n)] for an [int]. *)
Definition str_of_int (n : Z) : string := NilZero.string_of_int (Z.to_int n).

(** [s.startswith(p)] *)
Definition startswith (s p : string) : bool := String.prefix p s.

(** [sub in s] *)
Fixpoint contains (sub s : string) : bool :=
  String.prefix sub s ||
  match s with
  | EmptyString => false
  | String _ s' => contains sub s'
  end.

(** [s.lower()] on the ASCII letters. *)
Definition lower_char (c : ascii) : ascii :=
  let n := nat_of_ascii c in
  if (65 <=? n)%nat && (n <=? 90)%nat then ascii_of_nat (n + 32) else c.

Fixpoint lower (s : string) : string :=
  match s with
  | EmptyString => EmptyString
  | String c s' => String (lower_char c) (lower s')
  end.

(** [s.replace(a, b)] for single characters. *)
Fixpoint replace_char (a b : ascii) (s : string) : string :=
  match s with
  | EmptyString => EmptyString
  | String c s' => String (if Ascii.eqb c a then b else c) (replace_char a b s')
  end.

(** [c in chars] for a character. *)
Fixpoint char_in (c : ascii) (chars : string) : bool :=
  match chars with
  | EmptyString => false
  | String d chars' => Ascii.eqb c d || char_in c chars'
  end.

(** [s.split(sep)] for a non-empty separator: the pieces between the
    non-overlapping occurrences of [sep], scanned from the left.  [skip]
    counts the characters of an occurrence still to be passed over and [cur]
    holds the piece read so far. *)
Fixpoint split_from (sep : string) (skip : nat) (cur : string) (s : string)
  : list string :=
  match s with
  | EmptyString => [cur]
  | String c s' =>
      match skip with
      | S k => split_from sep k cur s'
      | O =>
          if String.prefix sep s
          then cur :: split_from sep (String.length sep - 1) EmptyString s'
          else split_from sep 0 (cur ++ String c EmptyString) s'
      end
  end.

Definition split (s sep : string) : list string := split_from sep 0 EmptyString s.

(** [s.split(sep, 1)] for a single-character separator: at most two pieces. *)
Fixpoint split1 (sep : ascii) (s : string) : list string :=
  match s with
  | EmptyString => [EmptyString]
  | String c s' =>
      if Ascii.eqb c sep then [EmptyString; s']
      else match split1 sep s' with
           | p :: rest => String c p :: rest
           | [] => [String c EmptyString]
           end
  end.

(** [xs[i]], which raises [IndexError] (here [None]) out of range. *)
Definition item {A} (xs : list A) (i : nat) : option A := nth_error xs i.

(** The value of a hexadecimal digit (["0123456789ABCDEFabcdef"]). *)
Definition hex_digit (c : ascii) : option nat :=
  let n := nat_of_ascii c in
  if (48 <=? n)%nat && (n <=? 57)%nat then Some (n - 48)
  else if (65 <=? n)%nat && (n <=? 70)%nat then Some (n - 55)
  else if (97 <=? n)%nat && (n <=? 102)%nat then Some (n - 87)
  else None.

(** [urllib.parse.unquote]: every [%XX] with two hexadecimal digits becomes
    the byte [XX]; any other [%] is kept.  (The final UTF-8 decoding, which
    replaces ill-formed sequences, is outside the byte-level model.) *)
Fixpoint unquote (s : string) : string :=
  match s with
  | EmptyString => EmptyString
  | String c s' =>
      if Ascii.eqb c "%" then
        match s' with
        | String h (String l rest) =>
            match hex_digit h, hex_digit l with
            | Some a, Some b => String (ascii_of_nat (16 * a + b)) (unquote rest)
            | _, _ => String c (unquote s')
            end
        | _ => String c (unquote s')
        end
      else String c (unquote s')
  end.

(** [s.strip()]: the ASCII white space is tab, line feed, vertical tab, form
    feed, carriage return, the separators [0x1c]-[0x1f] and the space. *)
Definition isspace (c : ascii) : bool :=
  let n := nat_of_ascii c in
  ((9 <=? n)%nat && (n <=? 13)%nat) || ((28 <=? n)%nat && (n <=? 32)%nat).

Fixpoint lstrip (s : string) : string :=
  match s with
  | EmptyString => EmptyString
  | String c s' => if isspace c then lstrip s' else s
  end.

Fixpoint rstrip (s : string) : string :=
  match s with
  | EmptyString => EmptyString
  | String c s' =>
      let r := rstrip s' in
      if isspace c && String.eqb r "" then EmptyString else String c r
  end.

Definition strip (s : string) : string := rstrip (lstrip s).

(** The longest prefix of [s] free of the characters [stop], and the rest. *)
Fixpoint break_at (stop : string) (s : string) : string * string :=
  match s with
  | EmptyString => (EmptyString, EmptyString)
  | String c s' =>
      if char_in c stop then (EmptyString, s)
      else let '(a, b) := break_at stop s' in (String c a, b)
  end.

End Py.

(** ** The result page and the request, as [google_search] sees them *)

(** A [bs4] tag: its attributes.  [link.get(key, default)] looks [key] up. *)
Record Tag := { attrs : list (string * string) }.

Fixpoint attrs_get (l : list (string * string)) (key default : string) : string :=
  match l with
  | [] => default
  | (k, v) :: l' => if String.eqb k key then v else attrs_get l' key default
  end.

Definition Tag_get (link : Tag) (key default : string) : string :=
  attrs_get (attrs link) key default.

(** A response of [requests.get]: its status code and, for its text parsed by
    [BeautifulSoup(response.text, "html.parser")], the tags that
    [soup.find_all("a")] lists, in document order. *)
Record Response := { status_code : Z; anchors : list Tag }.

(** What [requests.get] raises. *)
Inductive RequestException :=
| Timeout
| ConnectionError
| OtherException (message : string).

Inductive GetOutcome :=
| Raises (exc : RequestException)
| Returns (response : Response).

(** The [proxies] argument of [requests.get]. *)
Record ProxiesDict := { http : string; https : string }.

(** The arguments of the one outbound call of [google_search]. *)
Record Request := { search_url : string; proxies_dict : option ProxiesDict }.

(** ** [DorkSearchThread] *)

Module DorkSearchThread.

(** Lines 151-153: [proxies_dict] is set only [if proxy], that is for a
    proxy that is neither [None] nor the empty string. *)
Definition make_proxies_dict (proxy : option string) : option ProxiesDict :=
  match proxy with
  | Some p => if String.eqb p "" then None else Some {| http := p; https := p |}
  | None => None
  end.

(** Line 155. *)
Definition make_search_url (query : string) (max_results : Z) : string :=
  "https://www.google.com/search?q=" ++ query ++ "&num="
    ++ Py.str_of_int (Z.min max_results 100).

Definition google_search_request (query : string) (proxy : option string)
    (max_results : Z) : Request :=
  {| search_url := make_search_url query max_results;
     proxies_dict := make_proxies_dict proxy |}.

(** Lines 161-169, the loop over the anchors, started with the list [urls]
    collected so far.  An [IndexError] of a subscript would leave the loop
    through the [except] of line 170, which returns [urls] as it is. *)
Fixpoint collect_urls (max_results : Z) (links : list Tag) (urls : list string)
  : list string :=
  match links with
  | [] => urls
  | link :: links' =>
      let href := Tag_get link "href" "" in
      if Py.contains "/url?q=" href then
        match Py.item (Py.split href "/url?q=") 1 with
        | None => urls
        | Some after =>
            match Py.item (Py.split after "&") 0 with
            | None => urls
            | Some url =>
                let url := Py.unquote url in
                if Py.startswith url "http" then
                  let urls := urls ++ [url] in
                  if (Z.of_nat (List.length urls) >=? max_results)%Z
                  then urls
                  else collect_urls max_results links' urls
                else collect_urls max_results links' urls
            end
        end
      else collect_urls max_results links' urls
  end.

(** [google_search(query, proxy, max_results)]; [get] is [requests.get] with
    the fixed headers and timeout. *)
Definition google_search (get : Request -> GetOutcome) (query : string)
    (proxy : option string) (max_results : Z) : list string :=
  match get (google_search_request query proxy max_results) with
  | Raises _ => []
  | Returns response =>
      if (status_code response =? 200)%Z
      then collect_urls max_results (anchors response) []
      else []
  end.

Record t := {
  dorks : list string;
  domain : string;
  proxies : list string;
  max_results : Z;
  min_delay : Z;
  max_delay : Z;
  running : bool
}.

(** [__init__] *)
Definition init (dorks : list string) (domain : string) (proxies : list string)
    (max_results min_delay max_delay : Z) : t :=
  {| dorks := dorks; domain := domain; proxies := proxies;
     max_results := max_results; min_delay := min_delay;
     max_delay := max_delay; running := true |}.

(** [stop] *)
Definition stop (self : t) : t :=
  {| dorks := dorks self; domain := domain self; proxies := proxies self;
     max_results := max_results self; min_delay := min_delay self;
     max_delay := max_delay self; running := false |}.

(** What a run observes of its surroundings, per loop iteration [idx]:
    whether the GUI thread has called [stop] since the previous test of
    [self.running]; what [requests.get] does; the 53 random bits behind
    [random.random()]. *)
Record World := {
  stop_called : nat -> bool;
  requests_get : nat -> Request -> GetOutcome;
  random_bits : nat -> N
}.

(** [random.random()]: a multiple of [2^-53] in [[0, 1)]. *)
Definition random (bits : N) : Q :=
  Qmake (Z.of_N (bits mod 2 ^ 53)) (2 ^ 53).

(** [random.uniform(a, b)], which is [a + (b - a) * random()], computed
    exactly: the rounding of the code's floats, and the [OverflowError] for
    an integer that no float holds, are left out (see [moderate_delays]). *)
Definition uniform (a b : Z) (bits : N) : Q :=
  (inject_Z a + inject_Z (b - a) * random bits)%Q.

(** [time.sleep(secs)] raises [ValueError] for a negative length.  (The
    [OverflowError] for a length of [2^63] nanoseconds or more is left out:
    see [sleep_limit].) *)
Definition sleep (secs : Q) : option string :=
  if Qle_bool 0 secs then None
  else Some "sleep length must be non-negative".

(** What a run does that is visible outside the thread: the signals it emits,
    the requests it sends and the pauses it takes. *)
Inductive Event :=
| Progress (message : string) (current total : nat)
| Get (request : Request)
| Result (dork : string) (urls : list string) (count : nat)
| Sleep (seconds : Q)
| Finished
| Error (message : string).

(** Lines 126-129: the proxy of this iteration and the next [proxy_index]. *)
Definition select_proxy (proxies : list string) (proxy_index : nat)
  : option string * nat :=
  match proxies with
  | [] => (None, proxy_index)
  | _ :: _ =>
      (Py.item proxies (proxy_index mod List.length proxies), S proxy_index)
  end.

(** Line 124. *)
Definition make_query (dork domain : string) : string :=
  if String.eqb domain "" then dork else dork ++ " site:" ++ domain.

(** Lines 119-136, the [for] loop from iteration [idx] on, over the dorks
    still [todo]: the events of these iterations and the exception that
    ended them, if any. *)
Fixpoint for_loop (w : World) (self : t) (total_dorks : nat)
    (idx proxy_index : nat) (todo : list string) : list Event * option string :=
  match todo with
  | [] => ([], None)
  | dork :: todo' =>
      let self := if stop_called w idx then stop self else self in
      if negb (running self) then ([], None)
      else
        let query := make_query dork (domain self) in
        let '(proxy, proxy_index) := select_proxy (proxies self) proxy_index in
        let urls :=
          google_search (requests_get w idx) query proxy (max_results self) in
        let secs := uniform (min_delay self) (max_delay self) (random_bits w idx) in
        let emitted :=
          [ Progress ("Searching: " ++ dork) (idx + 1) total_dorks;
            Get (google_search_request query proxy (max_results self));
            Result dork urls (List.length urls) ] in
        match sleep secs with
        | Some exc => (emitted, Some exc)
        | None =>
            let '(later, exc) :=
              for_loop w self total_dorks (S idx) proxy_index todo' in
            (emitted ++ Sleep secs :: later, exc)
        end
  end.

(** [run] *)
Definition run (w : World) (self : t) : list Event :=
  let '(events, exc) :=
    for_loop w self (List.length (dorks self)) 0 0 (dorks self) in
  match exc with
  | None => events ++ [Finished]
  | Some e => events ++ [Error ("Search error: " ++ e)]
  end.

(** *** Reading a trace *)

(** The payloads of the [result] signals of a trace, in order. *)
Fixpoint results (tr : list Event) : list (string * list string * nat) :=
  match tr with
  | [] => []
  | Result dork urls count :: tr' => (dork, urls, count) :: results tr'
  | _ :: tr' => results tr'
  end.

(** The requests of a trace, in order. *)
Fixpoint requests (tr : list Event) : list Request :=
  match tr with
  | [] => []
  | Get request :: tr' => request :: requests tr'
  | _ :: tr' => requests tr'
  end.

(** The pauses of a trace, in order. *)
Fixpoint sleeps (tr : list Event) : list Q :=
  match tr with
  | [] => []
  | Sleep secs :: tr' => secs :: sleeps tr'
  | _ :: tr' => sleeps tr'
  end.

Definition is_error (e : Event) : bool :=
  match e with Error _ => true | _ => false end.

(** The last event of a trace. *)
Fixpoint terminal (tr : list Event) : option Event :=
  match tr with
  | [] => None
  | [e] => Some e
  | _ :: tr' => terminal tr'
  end.

Definition result_dork (r : string * list string * nat) : string := fst (fst r).
Definition result_urls (r : string * list string * nat) : list string :=
  snd (fst r).

(** *** The parts of iteration [idx] *)

(** [proxies[idx % len(proxies)]], or [None] for an empty pool. *)
Definition proxy_at (self : t) (idx : nat) : option string :=
  match proxies self with
  | [] => None
  | _ :: _ => Py.item (proxies self) (idx mod List.length (proxies self))
  end.

Definition request_at (self : t) (idx : nat) (dork : string) : Request :=
  google_search_request (make_query dork (domain self)) (proxy_at self idx)
    (max_results self).

Definition urls_at (w : World) (self : t) (idx : nat) (dork : string)
  : list string :=
  google_search (requests_get w idx) (make_query dork (domain self))
    (proxy_at self idx) (max_results self).

Definition delay_at (w : World) (self : t) (idx : nat) : Q :=
  uniform (min_delay self) (max_delay self) (random_bits w idx).

(** The events of an iteration that is neither cancelled nor interrupted by
    an exception. *)
Definition iteration (w : World) (self : t) (total_dorks : nat)
    (step : nat * string) : list Event :=
  let '(idx, dork) := step in
  [ Progress ("Searching: " ++ dork) (idx + 1) total_dorks;
    Get (request_at self idx dork);
    Result dork (urls_at w self idx dork) (List.length (urls_at w self idx dork));
    Sleep (delay_at w self idx) ].

(** [proxy_index] follows [idx] as long as the pool is not empty, and is not
    read when it is. *)
Definition index_in_step (self : t) (idx proxy_index : nat) : Prop :=
  proxies self = [] \/ proxy_index = idx.

(** *** Conditions on a run *)

(** No cancellation: the thread is as [__init__] leaves it and [stop] is
    never called. *)
Definition uncancelled (w : World) (self : t) : Prop :=
  running self = true /\ forall idx, stop_called w idx = false.

(** [stop] is first called between the end of iteration [i] and the test
    that opens iteration [i + 1]. *)
Definition stopped_after (w : World) (self : t) (i : nat) : Prop :=
  running self = true /\
  (forall idx, (idx <= i)%nat -> stop_called w idx = false) /\
  stop_called w (S i) = true.

(** The delay bounds are not negative, so that [time.sleep] cannot raise. *)
Definition nonnegative_delays (self : t) : Prop :=
  (0 <= min_delay self)%Z /\ (0 <= max_delay self)%Z.

(** The longest pause, in whole seconds, that [time.sleep] takes: a pause
    of [2^63] nanoseconds or more raises [OverflowError].  A float holds
    every integer of this size exactly. *)
Definition sleep_limit : Z := 9223372036.

(** The delay bounds are of a size at which [random.uniform] and
    [time.sleep] do what [uniform] and [sleep] say: the conversion of the
    bounds to floats is exact and the pause is not too long. *)
Definition moderate_delays (self : t) : Prop :=
  (Z.abs (min_delay self) <= sleep_limit)%Z /\
  (Z.abs (max_delay self) <= sleep_limit)%Z.

(** What [requests.get] did is a transport failure: it raised, or the
    status of the response is not a 2xx one. *)
Definition transport_failure (o : GetOutcome) : bool :=
  match o with
  | Raises _ => true
  | Returns response =>
      negb ((200 <=? status_code response)%Z && (status_code response <=? 299)%Z)
  end.

(** The URL is one of the two absolute forms the specification asks for. *)
Definition is_absolute_http_url (url : string) : bool :=
  String.prefix "http://" url || String.prefix "https://" url.

End DorkSearchThread.

(** ** [urllib.parse], as far as [extract_parameters] uses it *)

Module Urllib.

Record ParseResult := {
  scheme : string;
  netloc : string;
  path : string;
  params : string;
  query : string;
  fragment : string
}.

(** [url.lstrip(_WHATWG_C0_CONTROL_OR_SPACE)] *)
Fixpoint lstrip_c0 (s : string) : string :=
  match s with
  | EmptyString => EmptyString
  | String c s' => if (nat_of_ascii c <=? 32)%nat then lstrip_c0 s' else s
  end.

(** Tab, carriage return and line feed are removed from the URL. *)
Fixpoint remove_unsafe (s : string) : string :=
  match s with
  | EmptyString => EmptyString
  | String c s' =>
      let n := nat_of_ascii c in
      if (n =? 9)%nat || (n =? 10)%nat || (n =? 13)%nat
      then remove_unsafe s' else String c (remove_unsafe s')
  end.

Definition isalpha (c : ascii) : bool :=
  let n := nat_of_ascii c in
  ((65 <=? n)%nat && (n <=? 90)%nat) || ((97 <=? n)%nat && (n <=? 122)%nat).

Definition isdigit (c : ascii) : bool :=
  let n := nat_of_ascii c in (48 <=? n)%nat && (n <=? 57)%nat.

Definition scheme_char (c : ascii) : bool :=
  isalpha c || isdigit c || Py.char_in c "+-.".

Fixpoint all_chars (p : ascii -> bool) (s : string) : bool :=
  match s with
  | EmptyString => true
  | String c s' => p c && all_chars p s'
  end.

(** The scheme and the rest of the URL: the text before the first colon is
    a scheme when it starts with a letter and holds scheme characters only. *)
Definition split_scheme (url : string) : string * string :=
  match Py.split1 ":" url with
  | [before; after] =>
      match before with
      | String c _ =>
          if isalpha c && all_chars scheme_char before
          then (Py.lower before, after) else (EmptyString, url)
      | EmptyString => (EmptyString, url)
      end
  | _ => (EmptyString, url)
  end.

(** [url.split(c, 1)] into the part before the first [c] and the part after
    it (empty when [c] does not occur). *)
Definition cut (c : ascii) (url : string) : string * string :=
  match Py.split1 c url with
  | [before; after] => (before, after)
  | _ => (url, EmptyString)
  end.

(** [urlsplit].  A netloc with one square bracket but not the other raises
    [ValueError]; the further validation of bracketed and of non-ASCII hosts,
    which can only raise as well, is not modelled. *)
Definition urlsplit (url : string) : string + ParseResult :=
  let url := remove_unsafe (lstrip_c0 url) in
  let '(scheme, url) := split_scheme url in
  let '(netloc, url) :=
    match url with
    | String "/" (String "/" rest) => Py.break_at "/?#" rest
    | _ => (EmptyString, url)
    end in
  if xorb (Py.char_in "[" netloc) (Py.char_in "]" netloc)
  then inl "Invalid IPv6 URL"
  else
    let '(url, fragment) := cut "#" url in
    let '(url, query) := cut "?" url in
    inr {| scheme := scheme; netloc := netloc; path := url;
           params := EmptyString; query := query; fragment := fragment |}.

Definition uses_params : list string :=
  [""; "ftp"; "hdl"; "prospero"; "http"; "imap"; "https"; "shttp"; "rtsp";
   "rtsps"; "rtspu"; "sip"; "sips"; "mms"; "sftp"; "tel"].

(** The path cut after its last slash: [(url[:i], url[i:])] for
    [i = url.rfind("/")], and [("", url)] when there is no slash. *)
Fixpoint rcut_slash (url : string) : string * string :=
  match url with
  | EmptyString => (EmptyString, EmptyString)
  | String c url' =>
      let '(a, b) := rcut_slash url' in
      if Py.char_in "/" url' then (String c a, b) else (EmptyString, url)
  end.

(** [_splitparams]: the first semicolon of the last path segment separates
    the parameters of that segment. *)
Definition splitparams (url : string) : string * string :=
  let '(head, last) := rcut_slash url in
  if Py.char_in ";" last
  then let '(a, b) := cut ";" last in ((head ++ a)%string, b)
  else (url, EmptyString).

(** [urlparse] *)
Definition urlparse (url : string) : string + ParseResult :=
  match urlsplit url with
  | inl exc => inl exc
  | inr r =>
      if existsb (String.eqb (scheme r)) uses_params && Py.char_in ";" (path r)
      then
        let '(p, ps) := splitparams (path r) in
        inr {| scheme := scheme r; netloc := netloc r; path := p; params := ps;
               query := query r; fragment := fragment r |}
      else inr r
  end.

(** [parse_qsl] with its defaults: fields are separated by [&]; a field
    without [=] or with an empty value is dropped; [+] stands for a space and
    names and values are percent-decoded. *)
Definition parse_field (name_value : string) : list (string * string) :=
  if String.eqb name_value "" then []
  else
    match Py.split1 "=" name_value with
    | [name; value] =>
        if String.eqb value "" then []
        else [(Py.unquote (Py.replace_char "+" " " name),
               Py.unquote (Py.replace_char "+" " " value))]
    | _ => []
    end.

Definition parse_qsl (qs : string) : list (string * string) :=
  flat_map parse_field (Py.split qs "&").

(** [parsed_result[name].append(value)], or [parsed_result[name] = [value]]
    for a new name, on a [dict] kept in insertion order. *)
Fixpoint add_value (d : list (string * list string)) (name value : string)
  : list (string * list string) :=
  match d with
  | [] => [(name, [value])]
  | (k, vs) :: d' =>
      if String.eqb k name then (k, vs ++ [value]) :: d'
      else (k, vs) :: add_value d' name value
  end.

(** [parse_qs] *)
Definition parse_qs (qs : string) : list (string * list string) :=
  fold_left (fun d nv => add_value d (fst nv) (snd nv)) (parse_qsl qs) [].

End Urllib.

(** ** [ParameterExtractor] *)

Module ParameterExtractor.

(** A value of [flat_params]: one string, or the list of all values. *)
Inductive ParamValue :=
| Scalar (value : string)
| Values (values : list string).

Record UrlInfo := {
  url : string;
  scheme : string;
  domain : string;
  path : string;
  parameters : list (string * ParamValue);
  fragment : string
}.

(** The dictionary returned: with the key ["error"] alone, or with the six
    keys of [UrlInfo]. *)
Inductive Extracted :=
| ParseError (error : string)
| Parsed (info : UrlInfo).

(** Line 191: [value[0] if len(value) == 1 else value]. *)
Definition flatten (value : list string) : ParamValue :=
  match value with
  | [v] => Scalar v
  | _ => Values value
  end.

Definition flat_params (params : list (string * list string))
  : list (string * ParamValue) :=
  map (fun kv => (fst kv, flatten (snd kv))) params.

Definition extract_parameters (url : string) : Extracted :=
  match Urllib.urlparse url with
  | inl exc => ParseError exc
  | inr parsed =>
      Parsed {| url := url;
                scheme := Urllib.scheme parsed;
                domain := Urllib.netloc parsed;
                path := Urllib.path parsed;
                parameters := flat_params (Urllib.parse_qs (Urllib.query parsed));
                fragment := Urllib.fragment parsed |}
  end.

(** [d.get(key)] on a [dict] kept as the list of its items. *)
Fixpoint lookup {V} (d : list (string * V)) (key : string) : option V :=
  match d with
  | [] => None
  | (k, v) :: d' => if String.eqb k key then Some v else lookup d' key
  end.

(** The values that the fields named [name] have, in their order. *)
Definition values_of (name : string) (fields : list (string * string))
  : list string :=
  map snd (filter (fun nv => String.eqb (fst nv) name) fields).

(** What the specification gives a name: nothing when it has no value, its
    value when it has one, the list of its values when it has several. *)
Definition collapse (values : list string) : option ParamValue :=
  match values with
  | [] => None
  | [v] => Some (Scalar v)
  | _ => Some (Values values)
  end.

Definition db_indicators : list string :=
  ["php"; "asp"; "aspx"; "jsp"; "id="; "page="; "cat="; "item="; "user=";
   "product="; "article="; "view="; "content="; "show="].

Definition is_database_url (url : string) : bool :=
  let url_lower := Py.lower url in
  existsb (fun indicator => Py.contains indicator url_lower) db_indicators.

End ParameterExtractor.

(** ** [PagodoGUI] of [pagodo_gui_pyqt6.py]: the state the handlers work on *)

Module PagodoGUI.

(** An entry of [search_results]. *)
Record Row := {
  row_dork : string;
  row_url : string;
  row_parameters : list (string * ParameterExtractor.ParamValue)
}.

(** The lists the window owns and the values of the input widgets that
    [start_search] reads.  The tables and labels that mirror the lists are
    left out. *)
Record t := {
  dorks : list string;
  search_results : list Row;
  database_urls : list string;
  domain_input : string;
  enable_proxy_check : bool;
  proxy_text : string;
  max_results_spin : Z;
  min_delay_spin : Z;
  max_delay_spin : Z
}.

Definition set_search_results (self : t) (rows : list Row) : t :=
  {| dorks := dorks self; search_results := rows;
     database_urls := database_urls self; domain_input := domain_input self;
     enable_proxy_check := enable_proxy_check self;
     proxy_text := proxy_text self; max_results_spin := max_results_spin self;
     min_delay_spin := min_delay_spin self;
     max_delay_spin := max_delay_spin self |}.

Definition set_database_urls (self : t) (urls : list string) : t :=
  {| dorks := dorks self; search_results := search_results self;
     database_urls := urls; domain_input := domain_input self;
     enable_proxy_check := enable_proxy_check self;
     proxy_text := proxy_text self; max_results_spin := max_results_spin self;
     min_delay_spin := min_delay_spin self;
     max_delay_spin := max_delay_spin self |}.

(** [QSpinBox.value()] of a box set up with [setRange(lo, hi)]: the box
    keeps its value inside the range. *)
Definition value (lo hi v : Z) : Z := Z.max lo (Z.min hi v).

(** How [start_search] ends: with a warning box and nothing started, or with
    the search thread constructed and started. *)
Inductive StartOutcome :=
| Warning (title message : string)
| Started (self : t) (thread : DorkSearchThread.t).

Definition newline : string := String (ascii_of_nat 10) EmptyString.

(** Lines 630-634. *)
Definition read_proxies (self : t) : list string :=
  if enable_proxy_check self then
    let proxy_text := Py.strip (proxy_text self) in
    if String.eqb proxy_text "" then []
    else
      map Py.strip
        (filter (fun proxy => negb (String.eqb (Py.strip proxy) ""))
           (Py.split proxy_text newline))
  else [].

Definition start_search (self : t) : StartOutcome :=
  match dorks self with
  | [] => Warning "No Dorks" "Please fetch or load dorks first!"
  | _ :: _ =>
      let domain := Py.strip (domain_input self) in
      let proxies := read_proxies self in
      let self := set_search_results self [] in
      Started self
        (DorkSearchThread.init (dorks self) domain proxies
           (value 1 1000 (max_results_spin self))
           (value 1 60 (min_delay_spin self))
           (value 1 120 (max_delay_spin self)))
  end.

(** Line 677: [extract_parameters(url).get("parameters", {})]. *)
Definition parameters_of (url : string)
  : list (string * ParameterExtractor.ParamValue) :=
  match ParameterExtractor.extract_parameters url with
  | ParameterExtractor.Parsed info => ParameterExtractor.parameters info
  | ParameterExtractor.ParseError _ => []
  end.

(** The body of the loop of [on_search_result], for one [url]. *)
Definition add_url (dork : string) (self : t) (url : string) : t :=
  let row := {| row_dork := dork; row_url := url;
                row_parameters := parameters_of url |} in
  let self := set_search_results self (search_results self ++ [row]) in
  if ParameterExtractor.is_database_url url
  then set_database_urls self (database_urls self ++ [url])
  else self.

(** [on_search_result], for the payload [{"dork", "urls", "count"}]. *)
Definition on_search_result (self : t) (dork : string) (urls : list string) : t :=
  fold_left (add_url dork) urls self.

(** [list(dict.fromkeys(keys))]: the keys in the order in which they are
    first inserted. *)
Definition dict_fromkeys (keys : list string) : list string :=
  fold_left
    (fun d k => if existsb (String.eqb k) d then d else d ++ [k]) keys [].

(** The position at which [url] first occurs in [urls] (their number when
    it does not occur). *)
Fixpoint first_index (urls : list string) (url : string) : nat :=
  match urls with
  | [] => 0
  | u :: urls' => if String.eqb u url then 0 else S (first_index urls' url)
  end.

(** [filter_database_urls] *)
Definition filter_database_urls (self : t) : t :=
  let unique_urls := dict_fromkeys (database_urls self) in
  if negb (List.length unique_urls =? List.length (database_urls self))%nat
  then set_database_urls self unique_urls
  else self.

(** [clear_results] *)
Definition clear_results (self : t) : t :=
  set_database_urls (set_search_results self []) [].

(** [analyze_url], for the text of the input field: what it records. *)
Definition analyze_url (self : t) (text : string) : t :=
  let url := Py.strip text in
  if String.eqb url "" then self
  else if ParameterExtractor.is_database_url url
          && negb (existsb (String.eqb url) (database_urls self))
  then set_database_urls self (database_urls self ++ [url])
  else self.

(** The slot connected to each signal of the search thread; only
    [on_search_result] changes the lists. *)
Definition handle (self : t) (e : DorkSearchThread.Event) : t :=
  match e with
  | DorkSearchThread.Result dork urls _ => on_search_result self dork urls
  | _ => self
  end.

End PagodoGUI.

(** ** [PagodoGUI.start_search] of [pagodo_gui.py] *)

Module PagodoGUI5.

Record PagodoConfig := {
  google_dorks_file : string;
  domain : string;
  max_results : Z;
  proxies : string;
  save_json_path : option string;
  save_urls_path : option string;
  min_delay : Q;
  max_delay : Q;
  disable_verify_ssl : bool;
  verbosity : Z
}.

(** The values [start_search] reads: whether a worker thread is running,
    whether the selected dork file exists, and the input widgets (the two
    output paths as [_clean_output_path] returns them). *)
Record t := {
  thread_is_running : bool;
  dork_selector : string;
  dork_file_exists : bool;
  domain_input : string;
  max_results_spin : Z;
  min_delay_spin : Q;
  max_delay_spin : Q;
  proxies_input : string;
  json_path : option string;
  urls_path : option string;
  disable_ssl_checkbox : bool;
  verbosity_spin : Z
}.

Inductive StartOutcome :=
| Information (title message : string)
| Warning (title message : string)
| Launched (config : PagodoConfig).

Definition start_search (self : t) : StartOutcome :=
  if thread_is_running self then
    Information "Task in progress" "Please wait for the current task to finish."
  else if negb (dork_file_exists self) then
    Warning "Invalid dork file"
      "Please select a valid dork file before running pagodo."
  else if negb (Qle_bool (min_delay_spin self) (max_delay_spin self)) then
    Warning "Invalid delays"
      "Minimum delay must be less than or equal to the maximum delay."
  else
    Launched
      {| google_dorks_file := dork_selector self;
         domain := Py.strip (domain_input self);
         max_results := max_results_spin self;
         proxies := Py.strip (proxies_input self);
         save_json_path := json_path self;
         save_urls_path := urls_path self;
         min_delay := min_delay_spin self;
         max_delay := max_delay_spin self;
         disable_verify_ssl := disable_ssl_checkbox self;
         verbosity := verbosity_spin self |}.

End PagodoGUI5.

(** ** Concrete inputs *)

Module Examples.
Import DorkSearchThread.

Definition anchor (href : string) : Tag :=
  {| attrs := [("class", "r"); ("href", href)] |}.

(** A result page: two result links, a link of the page itself, an anchor
    without [href], and two wrapped targets that are not web addresses. *)
Definition page : list Tag :=
  [ anchor "/url?q=http://x.com/view.php%3Fid%3D5&sa=U";
    anchor "/preferences";
    {| attrs := [] |};
    anchor "/url?q=/settings&hl=en";
    anchor "/url?q=httpfoo&sa=U";
    anchor "/url?q=https://b.org/&sa=U" ].

Definition ok_page : Response := {| status_code := 200; anchors := page |}.

(** A world without cancellation in which every request is answered. *)
Definition calm : World :=
  {| stop_called := fun _ => false;
     requests_get := fun _ _ => Returns ok_page;
     random_bits := fun idx => (N.of_nat idx * 2 ^ 51 + 12345)%N |}.

(** As [calm], but [stop] is called after the first iteration. *)
Definition stop_after_first : World :=
  {| stop_called := fun idx => Nat.eqb idx 1;
     requests_get := requests_get calm;
     random_bits := random_bits calm |}.

(** As [calm], but the second request times out. *)
Definition second_times_out : World :=
  {| stop_called := fun _ => false;
     requests_get := fun idx _ => if Nat.eqb idx 1 then Raises Timeout
                                  else Returns ok_page;
     random_bits := random_bits calm |}.

Definition three_dorks : t :=
  init ["inurl:admin"; "inurl:login"; "filetype:sql"] "x.com" [] 10 2 5.

Definition five_dorks : t :=
  init ["d0"; "d1"; "d2"; "d3"; "d4"] ""
    ["http://p0:8080"; "http://p1:8080"; "socks5://p2:9050"] 10 3 3.

(** The thread that the window below starts: the delay bounds are the wrong
    way round. *)
Definition inverted_delays : t := init ["inurl:admin"] "" [] 50 10 5.

(** A window with one dork loaded, before any search. *)
Definition window : PagodoGUI.t :=
  {| PagodoGUI.dorks := ["inurl:admin"];
     PagodoGUI.search_results := [];
     PagodoGUI.database_urls := [];
     PagodoGUI.domain_input := "";
     PagodoGUI.enable_proxy_check := false;
     PagodoGUI.proxy_text := "";
     PagodoGUI.max_results_spin := 50;
     PagodoGUI.min_delay_spin := 2;
     PagodoGUI.max_delay_spin := 5 |}.

(** The same window with the minimum delay set to 10 and the maximum to 5,
    both inside the ranges of their spin boxes. *)
Definition inverted_window : PagodoGUI.t :=
  {| PagodoGUI.dorks := ["inurl:admin"];
     PagodoGUI.search_results := [];
     PagodoGUI.database_urls := [];
     PagodoGUI.domain_input := "";
     PagodoGUI.enable_proxy_check := false;
     PagodoGUI.proxy_text := "";
     PagodoGUI.max_results_spin := 50;
     PagodoGUI.min_delay_spin := 10;
     PagodoGUI.max_delay_spin := 5 |}.

(** The window of [pagodo_gui.py] with the same two delays. *)
Definition inverted_window5 : PagodoGUI5.t :=
  {| PagodoGUI5.thread_is_running := false;
     PagodoGUI5.dork_selector := "dorks/all_google_dorks.txt";
     PagodoGUI5.dork_file_exists := true;
     PagodoGUI5.domain_input := "";
     PagodoGUI5.max_results_spin := 100;
     PagodoGUI5.min_delay_spin := inject_Z 10;
     PagodoGUI5.max_delay_spin := inject_Z 5;
     PagodoGUI5.proxies_input := "";
     PagodoGUI5.json_path := None;
     PagodoGUI5.urls_path := None;
     PagodoGUI5.disable_ssl_checkbox := false;
     PagodoGUI5.verbosity_spin := 4 |}.

(** A world in which every draw of [random.random()] is one half. *)
Definition halfway : World :=
  {| stop_called := fun _ => false;
     requests_get := fun _ _ => Returns ok_page;
     random_bits := fun _ => (2 ^ 52)%N |}.

End Examples.


(** ** More of [pagodo_gui_pyqt6.py] *)

(** Nothing to strip on the left: the string is empty or starts with a
    character that is not white space. *)
Definition starts_clean (s : string) : Prop :=
  match s with
  | EmptyString => True
  | String c _ => Py.isspace c = false
  end.

(** A text of ASCII characters only.  On such a text the white space that
    [str.strip] removes and the digits that [int] reads are the ASCII ones,
    as [Py.strip] and [PagodoCLI.int] have them. *)
Definition ascii_text (s : string) : Prop :=
  Urllib.all_chars (fun c => (nat_of_ascii c <? 128)%nat) s = true.

(** *** The result page, link by link *)

Module ResultPage.

(** Lines 162-166, the body of the loop of [google_search] for one anchor:
    the text that the loop appends for this anchor, if it appends one. *)
Definition wrapped_target (link : Tag) : option string :=
  let href := Tag_get link "href" "" in
  if Py.contains "/url?q=" href then
    match Py.item (Py.split href "/url?q=") 1 with
    | None => None
    | Some after =>
        match Py.item (Py.split after "&") 0 with
        | None => None
        | Some url =>
            let url := Py.unquote url in
            if Py.startswith url "http" then Some url else None
        end
    end
  else None.

(** The texts of all the anchors of a page, in document order. *)
Definition wrapped_targets (links : list Tag) : list string :=
  flat_map (fun link => match wrapped_target link with
                        | Some url => [url]
                        | None => []
                        end) links.

(** The number of URLs at which the loop stops for a bound [max_results]:
    the bound is looked at after a URL is appended. *)
Definition cap (max_results : Z) : nat := Z.to_nat (Z.max 1 max_results).

End ResultPage.

(** *** Runs and their ends *)

Module Runs.
Import DorkSearchThread.

(** The same surroundings, but [stop] is never called. *)
Definition without_stop (w : World) : World :=
  {| stop_called := fun _ => false;
     requests_get := requests_get w;
     random_bits := random_bits w |}.

(** The two signals that end a run. *)
Definition is_terminal (e : Event) : bool :=
  match e with
  | Finished | Error _ => true
  | _ => false
  end.

(** The [result] signal carries the number of its URLs. *)
Definition count_is_length (r : string * list string * nat) : Prop :=
  snd r = List.length (result_urls r).

End Runs.

(** *** [ParameterExtractor.extract_sql_patterns] *)

Module SqlPatterns.

(** A pattern of the catalogue: its text, which is what the function
    returns, and the literal that the text puts before [\d+]. *)
Record Pattern := { text : string; literal : string }.

Definition patterns : list Pattern :=
  [ {| text := "id=\d+"; literal := "id=" |};
    {| text := "page=\d+"; literal := "page=" |};
    {| text := "cat=\d+"; literal := "cat=" |};
    {| text := "item=\d+"; literal := "item=" |};
    {| text := "article=\d+"; literal := "article=" |};
    {| text := "product=\d+"; literal := "product=" |} ].

(** The pattern matches at the start of [s]: the literal, then a digit
    (further digits do not change whether [\d+] matches).  Digits are the
    ASCII ones. *)
Fixpoint match_here (lit s : string) : bool :=
  match lit, s with
  | EmptyString, String c _ => Urllib.isdigit c
  | String a lit', String c s' => Ascii.eqb a c && match_here lit' s'
  | _, EmptyString => false
  end.

(** [re.search(pattern, url)]: the pattern matches somewhere in [url]. *)
Fixpoint re_search (lit s : string) : bool :=
  match_here lit s ||
  match s with
  | EmptyString => false
  | String _ s' => re_search lit s'
  end.

Definition extract_sql_patterns (url : string) : list string :=
  map text (filter (fun pattern => re_search (literal pattern) url) patterns).

End SqlPatterns.

(** *** [DorkScraperThread] *)

Module DorkScraperThread.

(** Lines 44-59. *)
Definition categories : list (Z * string) :=
  [ (1, "Footholds"); (2, "File Containing Usernames");
    (3, "Sensitive Directories"); (4, "Web Server Detection");
    (5, "Vulnerable Files"); (6, "Vulnerable Servers");
    (7, "Error Messages"); (8, "File Containing Juicy Info");
    (9, "File Containing Passwords"); (10, "Sensitive Online Shopping Info");
    (11, "Network or Vulnerability Data");
    (12, "Pages Containing Login Portals"); (13, "Various Online Devices");
    (14, "Advisories and Vulnerabilities") ]%Z.

(** A response: its status code and, for its text parsed by
    [BeautifulSoup], the texts of the cells that
    [soup.find_all("td", class_="dork")] lists, in document order. *)
Record Page := { status_code : Z; dork_cells : list string }.

(** What the request and the parsing of one category do: they raise (the
    text is that of the exception) or give a page. *)
Inductive Outcome :=
| Raises (message : string)
| Returns (page : Page).

(** An entry of [category_dict]. *)
Record CategoryEntry := {
  category_name : string;
  dorks : list string;
  count : nat
}.

(** The dictionary that [scrape_ghdb] returns. *)
Record DorksDict := {
  total_dorks : nat;
  extracted_dorks : list string;
  category_dict : list (Z * CategoryEntry)
}.

(** The signals of the thread, its requests and its pauses.  ([error] is
    emitted when [scrape_ghdb] raises, which nothing outside its own [try]
    does.) *)
Inductive Event :=
| Progress (message : string)
| Get (url : string)
| Sleep (seconds : Z)
| Finished (dorks_dict : DorksDict)
| Error (message : string).

(** Line 66. *)
Definition category_url (cat_id : Z) : string :=
  "https://www.exploit-db.com/google-hacking-database?category="
    ++ Py.str_of_int cat_id.

(** Line 73: [[elem.text.strip() for elem in dork_elements if
    elem.text.strip()]]. *)
Definition category_dorks (cells : list string) : list string :=
  map Py.strip (filter (fun text => negb (String.eqb (Py.strip text) "")) cells).

(** [d[key] = value] on a [dict] kept in insertion order. *)
Fixpoint dict_set (d : list (Z * CategoryEntry)) (key : Z) (value : CategoryEntry)
  : list (Z * CategoryEntry) :=
  match d with
  | [] => [(key, value)]
  | (k, v) :: d' =>
      if (k =? key)%Z then (k, value) :: d' else (k, v) :: dict_set d' key value
  end.

(** [d.get(key)] *)
Fixpoint dict_get (d : list (Z * CategoryEntry)) (key : Z) : option CategoryEntry :=
  match d with
  | [] => None
  | (k, v) :: d' => if (k =? key)%Z then Some v else dict_get d' key
  end.

(** The variables of [scrape_ghdb] and what it has done so far. *)
Record State := {
  all_dorks : list string;
  so_far : list (Z * CategoryEntry);
  events : list Event
}.

(** Lines 65-86, the body of the loop for one category. *)
Definition scrape_category (get : string -> Outcome) (st : State)
    (cat : Z * string) : State :=
  let '(cat_id, cat_name) := cat in
  let url := category_url cat_id in
  let begun :=
    events st ++ [Progress ("Scraping category: " ++ cat_name); Get url] in
  match get url with
  | Raises exc =>
      {| all_dorks := all_dorks st; so_far := so_far st;
         events := begun ++ [Progress ("Warning: Could not scrape category "
                                        ++ cat_name ++ ": " ++ exc)] |}
  | Returns page =>
      if (status_code page =? 200)%Z then
        let found := category_dorks (dork_cells page) in
        {| all_dorks := all_dorks st ++ found;
           so_far := dict_set (so_far st) cat_id
                       {| category_name := cat_name; dorks := found;
                          count := List.length found |};
           events := begun ++ [Sleep 1] |}
      else
        {| all_dorks := all_dorks st; so_far := so_far st; events := begun |}
  end.

Definition scrape_loop (get : string -> Outcome) (cats : list (Z * string))
    (st : State) : State :=
  fold_left (scrape_category get) cats st.

(** [scrape_ghdb]: the dictionary returned and what was done. *)
Definition scrape_ghdb (get : string -> Outcome) : DorksDict * list Event :=
  let st := scrape_loop get categories
              {| all_dorks := []; so_far := []; events := [] |} in
  ({| total_dorks := List.length (all_dorks st);
      extracted_dorks := all_dorks st;
      category_dict := so_far st |},
   events st).

(** [run] *)
Definition run (get : string -> Outcome) : list Event :=
  let '(dorks_dict, done) := scrape_ghdb get in
  Progress "Fetching latest dorks from GHDB..." :: done ++ [Finished dorks_dict].

(** **** Reading its traces and results *)

Fixpoint gets (tr : list Event) : list string :=
  match tr with
  | [] => []
  | Get url :: tr' => url :: gets tr'
  | _ :: tr' => gets tr'
  end.

Fixpoint sleeps (tr : list Event) : list Z :=
  match tr with
  | [] => []
  | Sleep secs :: tr' => secs :: sleeps tr'
  | _ :: tr' => sleeps tr'
  end.

Definition is_error (e : Event) : bool :=
  match e with Error _ => true | _ => false end.

(** What a category contributes to [category_dict]: an entry when its page
    comes with status 200, nothing otherwise. *)
Definition entry_for (get : string -> Outcome) (cat_id : Z) (cat_name : string)
  : option CategoryEntry :=
  match get (category_url cat_id) with
  | Raises _ => None
  | Returns page =>
      if (status_code page =? 200)%Z
      then Some {| category_name := cat_name;
                   dorks := category_dorks (dork_cells page);
                   count := List.length (category_dorks (dork_cells page)) |}
      else None
  end.

(** The name under which a list of categories has [cat_id]. *)
Fixpoint name_of (cats : list (Z * string)) (cat_id : Z) : option string :=
  match cats with
  | [] => None
  | (k, name) :: cats' => if (k =? cat_id)%Z then Some name else name_of cats' cat_id
  end.

(** A dork as the scraper keeps it: not empty and without white space at
    its ends. *)
Definition stripped (dork : string) : Prop := dork <> "" /\ Py.strip dork = dork.

(** The lists of a state agree: the dorks are those of the entries, in the
    order of the entries, each entry counts its dorks, every dork is
    stripped, and there is one pause of a second per entry. *)
Definition consistent (st : State) : Prop :=
  all_dorks st = List.concat (map (fun e => dorks (snd e)) (so_far st)) /\
  Forall (fun e => count (snd e) = List.length (dorks (snd e))) (so_far st) /\
  Forall stripped (all_dorks st) /\
  sleeps (events st) = repeat 1%Z (List.length (so_far st)).

End DorkScraperThread.

(** *** The dorks of the window: fetched, loaded and saved *)

Module DorkFiles.

Definition is_newline (c : ascii) : bool :=
  let n := nat_of_ascii c in (n =? 10)%nat || (n =? 13)%nat.

(** The lines that iterating over a text file gives, without their ends.
    Reading translates a carriage return, alone or before a line feed, into
    a line feed; here each of the two characters ends a line, which gives
    the same lines but for empty ones, and those [load_dorks] drops.
    [cur] is the line read so far. *)
Fixpoint lines_from (cur : string) (s : string) : list string :=
  match s with
  | EmptyString => [cur]
  | String c s' =>
      if is_newline c then cur :: lines_from EmptyString s'
      else lines_from (cur ++ String c EmptyString) s'
  end.

(** [sep.join(l)] *)
Fixpoint join (sep : string) (l : list string) : string :=
  match l with
  | [] => EmptyString
  | [x] => x
  | x :: l' => x ++ sep ++ join sep l'
  end.

(** Line 615: [[line.strip() for line in dorks_file if line.strip()]]. *)
Definition read_dorks (content : string) : list string :=
  map Py.strip
    (filter (fun line => negb (String.eqb (Py.strip line) ""))
       (lines_from EmptyString content)).

Definition set_dorks (self : PagodoGUI.t) (dorks : list string) : PagodoGUI.t :=
  {| PagodoGUI.dorks := dorks;
     PagodoGUI.search_results := PagodoGUI.search_results self;
     PagodoGUI.database_urls := PagodoGUI.database_urls self;
     PagodoGUI.domain_input := PagodoGUI.domain_input self;
     PagodoGUI.enable_proxy_check := PagodoGUI.enable_proxy_check self;
     PagodoGUI.proxy_text := PagodoGUI.proxy_text self;
     PagodoGUI.max_results_spin := PagodoGUI.max_results_spin self;
     PagodoGUI.min_delay_spin := PagodoGUI.min_delay_spin self;
     PagodoGUI.max_delay_spin := PagodoGUI.max_delay_spin self |}.

(** [load_dorks], for the text of the chosen file; [None] when no file is
    chosen or reading it raises, which leaves the window as it is. *)
Definition load_dorks (self : PagodoGUI.t) (file : option string) : PagodoGUI.t :=
  match file with
  | None => self
  | Some content => set_dorks self (read_dorks content)
  end.

(** [save_dorks]: the text written to the chosen file; nothing is written
    when no dorks are loaded. *)
Definition save_dorks (self : PagodoGUI.t) : option string :=
  match PagodoGUI.dorks self with
  | [] => None
  | _ :: _ => Some (join PagodoGUI.newline (PagodoGUI.dorks self))
  end.

(** [on_dorks_fetched] *)
Definition on_dorks_fetched (self : PagodoGUI.t)
    (dorks_dict : DorkScraperThread.DorksDict) : PagodoGUI.t :=
  set_dorks self (DorkScraperThread.extracted_dorks dorks_dict).

(** A line holds no line end. *)
Definition one_line (s : string) : Prop :=
  Urllib.all_chars (fun c => negb (is_newline c)) s = true.

(** A dork that a file keeps as it is: stripped and on one line. *)
Definition storable (dork : string) : Prop :=
  DorkScraperThread.stripped dork /\ one_line dork.

End DorkFiles.

(** *** The rows of the results table *)

Module Rows.

(** Line 678: the entry that [on_search_result] appends for one URL. *)
Definition row_of (dork url : string) : PagodoGUI.Row :=
  {| PagodoGUI.row_dork := dork;
     PagodoGUI.row_url := url;
     PagodoGUI.row_parameters := PagodoGUI.parameters_of url |}.

(** The entries for the payload of one [result] signal. *)
Definition rows_of (r : string * list string * nat) : list PagodoGUI.Row :=
  map (row_of (DorkSearchThread.result_dork r)) (DorkSearchThread.result_urls r).

(** The [proxies] argument for a proxy that is used. *)
Definition through (proxy : string) : option ProxiesDict :=
  Some {| http := proxy; https := proxy |}.

End Rows.

(** ** [pagodo_cli.py] *)

Module PagodoCLI.

(** The white space that [int] passes over at the ends of a numeral, which
    is that of C's [isspace]: tab, line feed, vertical tab, form feed,
    carriage return and the space.  The separators [0x1c]-[0x1f], which
    [str.strip] removes, are not among it. *)
Definition c_isspace (c : ascii) : bool :=
  let n := nat_of_ascii c in
  ((9 <=? n)%nat && (n <=? 13)%nat) || (n =? 32)%nat.

Fixpoint c_lstrip (s : string) : string :=
  match s with
  | EmptyString => EmptyString
  | String c s' => if c_isspace c then c_lstrip s' else s
  end.

Fixpoint c_rstrip (s : string) : string :=
  match s with
  | EmptyString => EmptyString
  | String c s' =>
      let r := c_rstrip s' in
      if c_isspace c && String.eqb r "" then EmptyString else String c r
  end.

(** The digits of a numeral, read from the left: single underscores may
    stand between digits.  [None] stands for [ValueError].  Digits are the
    ASCII ones.  [after_digit] tells whether the last character read was a
    digit. *)
Fixpoint int_digits (acc : Z) (after_digit : bool) (s : string) : option Z :=
  match s with
  | EmptyString => if after_digit then Some acc else None
  | String c s' =>
      if Urllib.isdigit c
      then int_digits (10 * acc + Z.of_nat (nat_of_ascii c - 48)) true s'
      else if Ascii.eqb c "_" && after_digit then int_digits acc false s'
      else None
  end.

Fixpoint count_digits (s : string) : Z :=
  match s with
  | EmptyString => 0
  | String c s' => (if Urllib.isdigit c then 1 else 0) + count_digits s'
  end.

(** [sys.get_int_max_str_digits()], as the interpreter starts: a numeral
    with more digits is refused, by [int] and by [str] alike. *)
Definition int_max_str_digits : Z := 4300.

(** A numeral without its sign. *)
Definition int_unsigned (s : string) : option Z :=
  if (int_max_str_digits <? count_digits s)%Z then None
  else int_digits 0 false s.

(** [int(text)] for a decimal numeral: white space around it is passed
    over and a sign may come first. *)
Definition int (text : string) : option Z :=
  match c_rstrip (c_lstrip text) with
  | String "+" s => int_unsigned s
  | String "-" s => option_map Z.opp (int_unsigned s)
  | s => int_unsigned s
  end.

(** [value < minimum], for [minimum] that may be [None]. *)
Definition below (minimum : option Z) (value : Z) : bool :=
  match minimum with
  | Some m => (value <? m)%Z
  | None => false
  end.

Definition above (maximum : option Z) (value : Z) : bool :=
  match maximum with
  | Some m => (m <? value)%Z
  | None => false
  end.

(** [prompt_int], reading the lines that [input] gives from [answers]: the
    value returned and the lines left, or [None] when the lines run out. *)
Fixpoint prompt_int (answers : list string) (minimum maximum : option Z)
  : option (Z * list string) :=
  match answers with
  | [] => None
  | answer :: rest =>
      match int (Py.strip answer) with
      | None => prompt_int rest minimum maximum
      | Some value =>
          if below minimum value then prompt_int rest minimum maximum
          else if above maximum value then prompt_int rest minimum maximum
          else Some (value, rest)
      end
  end.

(** A value of an output option: [None], [False] or a path. *)
Inductive Output :=
| NoOutput
| Disabled
| Path (path : string).

(** [self.config] *)
Record Config := {
  google_dorks_file : option string;
  domain : string;
  minimum_delay : Z;
  maximum_delay : Z;
  disable_verify_ssl : bool;
  max_results : Z;
  proxies : string;
  save_json : Output;
  save_urls : Output;
  verbosity : Z;
  log_file_name : string
}.

(** Lines 193-205. *)
Definition default_config : Config :=
  {| google_dorks_file := None; domain := "";
     minimum_delay := 37; maximum_delay := 60;
     disable_verify_ssl := false; max_results := 100; proxies := "";
     save_json := NoOutput; save_urls := NoOutput;
     verbosity := 4; log_file_name := "pagodo.py.log" |}.

Definition with_minimum_delay (c : Config) (v : Z) : Config :=
  {| google_dorks_file := google_dorks_file c; domain := domain c;
     minimum_delay := v; maximum_delay := maximum_delay c;
     disable_verify_ssl := disable_verify_ssl c; max_results := max_results c;
     proxies := proxies c; save_json := save_json c; save_urls := save_urls c;
     verbosity := verbosity c; log_file_name := log_file_name c |}.

Definition with_maximum_delay (c : Config) (v : Z) : Config :=
  {| google_dorks_file := google_dorks_file c; domain := domain c;
     minimum_delay := minimum_delay c; maximum_delay := v;
     disable_verify_ssl := disable_verify_ssl c; max_results := max_results c;
     proxies := proxies c; save_json := save_json c; save_urls := save_urls c;
     verbosity := verbosity c; log_file_name := log_file_name c |}.

(** [set_minimum_delay] *)
Definition set_minimum_delay (c : Config) (answers : list string)
  : option (Config * list string) :=
  match prompt_int answers (Some 0%Z) None with
  | Some (v, rest) => Some (with_minimum_delay c v, rest)
  | None => None
  end.

(** [set_maximum_delay] *)
Definition set_maximum_delay (c : Config) (answers : list string)
  : option (Config * list string) :=
  let minimum := minimum_delay c in
  match prompt_int answers (Some (minimum + 1)%Z) None with
  | Some (v, rest) => Some (with_maximum_delay c v, rest)
  | None => None
  end.

(** The entries of the menu, by the method each one calls. *)
Inductive Action :=
| set_dorks_file
| set_domain
| set_minimum_delay_item
| set_maximum_delay_item
| toggle_ssl_verification
| set_max_results_item
| configure_proxies
| configure_json_output
| configure_text_output
| set_log_filename
| run_pagodo.

(** Lines 207-219. *)
Definition menu_items : list Action :=
  [ set_dorks_file; set_domain; set_minimum_delay_item; set_maximum_delay_item;
    toggle_ssl_verification; set_max_results_item; configure_proxies;
    configure_json_output; configure_text_output; set_log_filename;
    run_pagodo ].

(** [l[i]] for an [int]: a negative index counts from the end, and an index
    out of range raises [IndexError] (here [None]). *)
Definition index {A} (l : list A) (i : Z) : option A :=
  let n := Z.of_nat (List.length l) in
  if (0 <=? i)%Z then nth_error l (Z.to_nat i)
  else if (- n <=? i)%Z then nth_error l (Z.to_nat (n + i))
  else None.

(** What the menu loop does with a line. *)
Inductive Choice :=
| Exit
| Invalid
| Call (action : Action).

(** Lines 256-266, for the line that [input] gives. *)
Definition choose (line : string) : Choice :=
  let choice := Py.strip line in
  if String.eqb choice "0" then Exit
  else
    match int choice with
    | None => Invalid
    | Some n =>
        match index menu_items (n - 1) with
        | Some action => Call action
        | None => Invalid
        end
    end.

End PagodoCLI.

(** ** More concrete inputs *)

Module MoreExamples.

(** A database that answers for the first category, times out for the
    second and refuses the others. *)
Definition ghdb (url : string) : DorkScraperThread.Outcome :=
  if String.eqb url (DorkScraperThread.category_url 1) then
    DorkScraperThread.Returns
      {| DorkScraperThread.status_code := 200;
         DorkScraperThread.dork_cells :=
           [" inurl:admin "; "  "; "intitle:index.of"] |}
  else if String.eqb url (DorkScraperThread.category_url 2) then
    DorkScraperThread.Raises "timed out"
  else
    DorkScraperThread.Returns
      {| DorkScraperThread.status_code := 404;
         DorkScraperThread.dork_cells := [] |}.

(** A window with two dorks, two collected URLs, and proxies typed with
    blanks and an empty line. *)
Definition proxied_window : PagodoGUI.t :=
  {| PagodoGUI.dorks := ["inurl:admin"; "site:x.com ext:sql"];
     PagodoGUI.search_results := [];
     PagodoGUI.database_urls := ["http://x.com/a.php"; "http://x.com/b.php"];
     PagodoGUI.domain_input := "";
     PagodoGUI.enable_proxy_check := true;
     PagodoGUI.proxy_text :=
       " http://p0:8080 " ++ PagodoGUI.newline ++ PagodoGUI.newline
         ++ "socks5://p1:9050" ++ PagodoGUI.newline;
     PagodoGUI.max_results_spin := 50;
     PagodoGUI.min_delay_spin := 2;
     PagodoGUI.max_delay_spin := 5 |}.

(** The text of a dork file with a line ended by a carriage return and a
    line feed, an empty line and a line with blanks around its dork. *)
Definition dork_file : string :=
  "inurl:admin" ++ String (ascii_of_nat 13) PagodoGUI.newline
    ++ PagodoGUI.newline ++ "  ext:sql  " ++ PagodoGUI.newline.

End MoreExamples.
(** * Properties *)

(** ** The delay drawn by [random.uniform] *)

Section Delay.
Import DorkSearchThread.
Local Open Scope Q_scope.

Lemma random_range (bits : N) : 0 <= random bits /\ random bits < 1.
Proof.
  unfold random, Qle, Qlt; cbn [Qnum Qden].
  assert (H := N.mod_upper_bound bits (2 ^ 53) ltac:(discriminate)).
  apply N2Z.inj_lt in H.
  change (Z.of_N (2 ^ 53)) with (Z.pos (2 ^ 53)) in H.
  generalize dependent (Z.pos (2 ^ 53)).
  generalize (N2Z.is_nonneg (bits mod 2 ^ 53)).
  generalize (Z.of_N (bits mod 2 ^ 53)).
  intros k Hk d Hd. split; lia.
Qed.

(** A point of the segment from [a] to [b] lies between its ends. *)
Lemma segment_between (a b r : Q) :
  0 <= r -> r <= 1 -> a <= b -> a <= a + (b - a) * r /\ a + (b - a) * r <= b.
Proof.
  intros Hr0 Hr1 Hab. split; nra.
Qed.

Lemma uniform_unfold (a b : Z) (bits : N) :
  uniform a b bits == inject_Z a + (inject_Z b - inject_Z a) * random bits.
Proof.
  unfold uniform, Z.sub. rewrite inject_Z_plus, inject_Z_opp. ring.
Qed.

(** With ordered bounds the draw lies between them. *)
Lemma uniform_between (a b : Z) (bits : N) :
  (a <= b)%Z ->
  inject_Z a <= uniform a b bits /\ uniform a b bits <= inject_Z b.
Proof.
  intros Hab. rewrite uniform_unfold.
  destruct (random_range bits) as [H0 H1].
  apply segment_between; [ assumption | apply Qlt_le_weak; assumption | ].
  rewrite <- Zle_Qle; assumption.
Qed.

(** With the bounds the other way round the draw lies between them too. *)
Lemma uniform_between_swapped (a b : Z) (bits : N) :
  (b <= a)%Z ->
  inject_Z b <= uniform a b bits /\ uniform a b bits <= inject_Z a.
Proof.
  intros Hba.
  destruct (random_range bits) as [H0 H1].
  assert (E : uniform a b bits ==
              inject_Z b + (inject_Z a - inject_Z b) * (1 - random bits)).
  { rewrite uniform_unfold. ring. }
  rewrite E. apply segment_between; [ lra | lra | ].
  rewrite <- Zle_Qle; assumption.
Qed.

Lemma uniform_fixed (a : Z) (bits : N) : uniform a a bits == inject_Z a.
Proof. rewrite uniform_unfold. ring. Qed.

Lemma uniform_nonnegative (a b : Z) (bits : N) :
  (0 <= a)%Z -> (0 <= b)%Z -> 0 <= uniform a b bits.
Proof.
  intros Ha Hb.
  destruct (Z.le_ge_cases a b) as [Hab | Hba].
  - apply Qle_trans with (inject_Z a).
    + change 0 with (inject_Z 0). rewrite <- Zle_Qle; assumption.
    + apply uniform_between; assumption.
  - apply Qle_trans with (inject_Z b).
    + change 0 with (inject_Z 0). rewrite <- Zle_Qle; assumption.
    + apply uniform_between_swapped; assumption.
Qed.

Lemma sleep_returns (secs : Q) : 0 <= secs -> sleep secs = None.
Proof.
  intros H. unfold sleep.
  destruct (Qle_bool 0 secs) eqn:E; [ reflexivity | ].
  apply Qle_bool_iff in H. congruence.
Qed.

End Delay.

(** ** The loop of [run] *)

Section Loop.
Import DorkSearchThread.

Lemma select_proxy_step (self : t) (idx proxy_index : nat) :
  index_in_step self idx proxy_index ->
  fst (select_proxy (proxies self) proxy_index) = proxy_at self idx /\
  index_in_step self (S idx) (snd (select_proxy (proxies self) proxy_index)).
Proof.
  unfold index_in_step, select_proxy, proxy_at.
  intros [E | E].
  - rewrite E. split; [ reflexivity | left; reflexivity ].
  - subst. destruct (proxies self); cbn [fst snd];
      split; auto.
Qed.

(** One step of the loop, unfolded: the test of [self.running], then the
    body, then the rest of the loop. *)
Lemma for_loop_cons (w : World) (self : t) (total idx proxy_index : nat)
    (dork : string) (todo : list string) :
  for_loop w self total idx proxy_index (dork :: todo) =
  if stop_called w idx || negb (running self) then ([], None)
  else
    let p := select_proxy (proxies self) proxy_index in
    let urls := google_search (requests_get w idx)
                  (make_query dork (domain self)) (fst p) (max_results self) in
    let emitted :=
      [ Progress ("Searching: " ++ dork) (idx + 1) total;
        Get (google_search_request (make_query dork (domain self)) (fst p)
               (max_results self));
        Result dork urls (List.length urls) ] in
    match sleep (delay_at w self idx) with
    | Some exc => (emitted, Some exc)
    | None =>
        (emitted ++ Sleep (delay_at w self idx)
           :: fst (for_loop w self total (S idx) (snd p) todo),
         snd (for_loop w self total (S idx) (snd p) todo))
    end.
Proof.
  cbn [for_loop].
  destruct (stop_called w idx); [ reflexivity | ].
  cbn [orb]. destruct (running self); [ | reflexivity ].
  cbn [negb]. destruct (select_proxy (proxies self) proxy_index) as [proxy pi'].
  cbn [fst snd]. unfold delay_at.
  destruct (sleep _); [ reflexivity | ].
  destruct (for_loop w self total (S idx) pi' todo). reflexivity.
Qed.

(** The loop when the first [k] iterations are not cancelled and the next
    one, if there is one, is: it runs exactly these [k] iterations. *)
Lemma for_loop_runs (w : World) (self : t) (total : nat) :
  running self = true ->
  nonnegative_delays self ->
  forall (todo : list string) (k idx proxy_index : nat),
    index_in_step self idx proxy_index ->
    (k <= List.length todo)%nat ->
    (forall j, (j < k)%nat -> stop_called w (idx + j) = false) ->
    ((k < List.length todo)%nat -> stop_called w (idx + k) = true) ->
    for_loop w self total idx proxy_index todo =
    (flat_map (iteration w self total) (combine (seq idx k) todo), None).
Proof.
  intros Hrun [Hmin Hmax].
  induction todo as [ | dork todo IH ]; intros k idx proxy_index Hpi Hk Hgo Hstop.
  - cbn in Hk. assert (k = 0)%nat by lia. subst. reflexivity.
  - rewrite for_loop_cons. destruct k as [ | k ].
    + rewrite Nat.add_0_r in Hstop. rewrite Hstop by (cbn; lia). reflexivity.
    + assert (H0 := Hgo 0%nat ltac:(lia)). rewrite Nat.add_0_r in H0.
      rewrite H0, Hrun. cbn [orb negb].
      destruct (select_proxy_step self idx proxy_index Hpi) as [Hp Hnext].
      cbv zeta. rewrite Hp.
      rewrite sleep_returns by (apply uniform_nonnegative; assumption).
      rewrite (IH k (S idx) _ Hnext).
      * reflexivity.
      * cbn in Hk. lia.
      * intros j Hj. replace (S idx + j)%nat with (idx + S j)%nat by lia.
        apply Hgo. lia.
      * intros Hlt. replace (S idx + k)%nat with (idx + S k)%nat by lia.
        apply Hstop. cbn. lia.
Qed.

(** The trace of a run that is not cancelled and has no failing pause. *)
Lemma run_uncancelled_trace (w : World) (self : t) :
  uncancelled w self ->
  nonnegative_delays self ->
  run w self =
  flat_map (iteration w self (List.length (dorks self)))
    (combine (seq 0 (List.length (dorks self))) (dorks self)) ++ [Finished].
Proof.
  intros [Hrun Hnever] Hdelays. unfold run.
  rewrite (for_loop_runs w self _ Hrun Hdelays (dorks self)
             (List.length (dorks self)) 0 0).
  - reflexivity.
  - right; reflexivity.
  - lia.
  - intros; apply Hnever.
  - lia.
Qed.

(** The trace of a run in which [stop] is called after iteration [i]. *)
Lemma run_stopped_trace (w : World) (self : t) (i : nat) :
  stopped_after w self i ->
  nonnegative_delays self ->
  (i < List.length (dorks self))%nat ->
  run w self =
  flat_map (iteration w self (List.length (dorks self)))
    (combine (seq 0 (S i)) (dorks self)) ++ [Finished].
Proof.
  intros (Hrun & Hgo & Hstop) Hdelays Hi. unfold run.
  rewrite (for_loop_runs w self _ Hrun Hdelays (dorks self) (S i) 0 0).
  - reflexivity.
  - right; reflexivity.
  - lia.
  - intros j Hj. apply Hgo. cbn. lia.
  - intros _. exact Hstop.
Qed.

(** *** Reading the trace of whole iterations *)

Lemma results_app (tr1 tr2 : list Event) :
  results (tr1 ++ tr2) = results tr1 ++ results tr2.
Proof.
  induction tr1 as [ | e tr1 IH ]; [ reflexivity | ].
  destruct e; cbn; rewrite IH; reflexivity.
Qed.

Lemma requests_app (tr1 tr2 : list Event) :
  requests (tr1 ++ tr2) = requests tr1 ++ requests tr2.
Proof.
  induction tr1 as [ | e tr1 IH ]; [ reflexivity | ].
  destruct e; cbn; rewrite IH; reflexivity.
Qed.

Lemma sleeps_app (tr1 tr2 : list Event) :
  sleeps (tr1 ++ tr2) = sleeps tr1 ++ sleeps tr2.
Proof.
  induction tr1 as [ | e tr1 IH ]; [ reflexivity | ].
  destruct e; cbn; rewrite IH; reflexivity.
Qed.

Lemma results_iterations (w : World) (self : t) (total : nat)
    (steps : list (nat * string)) :
  results (flat_map (iteration w self total) steps) =
  map (fun step =>
         (snd step, urls_at w self (fst step) (snd step),
          List.length (urls_at w self (fst step) (snd step)))) steps.
Proof.
  induction steps as [ | [idx dork] steps IH ]; [ reflexivity | ].
  cbn [flat_map]. rewrite results_app, IH. reflexivity.
Qed.

Lemma requests_iterations (w : World) (self : t) (total : nat)
    (steps : list (nat * string)) :
  requests (flat_map (iteration w self total) steps) =
  map (fun step => request_at self (fst step) (snd step)) steps.
Proof.
  induction steps as [ | [idx dork] steps IH ]; [ reflexivity | ].
  cbn [flat_map]. rewrite requests_app, IH. reflexivity.
Qed.

Lemma no_error_iterations (w : World) (self : t) (total : nat)
    (steps : list (nat * string)) :
  existsb is_error (flat_map (iteration w self total) steps) = false.
Proof.
  induction steps as [ | [idx dork] steps IH ]; [ reflexivity | ].
  cbn [flat_map]. rewrite existsb_app, IH. reflexivity.
Qed.

Lemma map_snd_combine_seq {A} (l : list A) (start k : nat) :
  map snd (combine (seq start k) l) = firstn k l.
Proof.
  revert start l. induction k as [ | k IH ]; intros start l; [ reflexivity | ].
  destruct l as [ | x l ]; [ reflexivity | ].
  cbn. rewrite IH. reflexivity.
Qed.

Lemma nth_error_combine_seq {A} (l : list A) (start k j : nat) (x : A) :
  (j < k)%nat -> nth_error l j = Some x ->
  nth_error (combine (seq start k) l) j = Some ((start + j)%nat, x).
Proof.
  revert start l j. induction k as [ | k IH ]; intros start l j Hj Hx; [ lia | ].
  destruct l as [ | y l ]; [ destruct j; discriminate | ].
  destruct j as [ | j ]; cbn in *.
  - rewrite Nat.add_0_r. congruence.
  - rewrite (IH (S start) l j) by (assumption || lia).
    rewrite Nat.add_succ_r. reflexivity.
Qed.

Lemma combine_seq_snoc {A} (first : list A) (x : A) (start : nat) :
  combine (seq start (List.length (first ++ [x]))) (first ++ [x]) =
  combine (seq start (List.length first)) first
    ++ [((start + List.length first)%nat, x)].
Proof.
  revert start. induction first as [ | y first IH ]; intros start.
  - cbn. rewrite Nat.add_0_r. reflexivity.
  - cbn [List.length app seq combine]. rewrite IH, Nat.add_succ_r. reflexivity.
Qed.

End Loop.

(** ** Runs of the search thread *)

Section Runs.
Import DorkSearchThread.

Lemma terminal_app_last (tr : list Event) (e : Event) :
  terminal (tr ++ [e]) = Some e.
Proof.
  induction tr as [ | e' tr IH ]; [ reflexivity | ].
  cbn [app terminal]. rewrite IH.
  destruct (tr ++ [e]) eqn:E; [ destruct tr; discriminate | reflexivity ].
Qed.

Lemma google_search_failure (get : Request -> GetOutcome) (query : string)
    (proxy : option string) (max_results : Z) :
  transport_failure (get (google_search_request query proxy max_results)) = true ->
  google_search get query proxy max_results = [].
Proof.
  unfold google_search, transport_failure.
  destruct (get _) as [ exc | response ]; [ reflexivity | ].
  intros H. destruct (Z.eqb_spec (status_code response) 200) as [E | _];
    [ | reflexivity ].
  rewrite E in H. discriminate.
Qed.

(** C1.  A run that is not cancelled and in which nothing fails emits exactly
    one [result] signal per query of its list, in the order of the list:
    the dorks of the signals are the list itself, so there are as many
    signals as queries, and each signal carries the URLs found for its
    query and their number. *)
Theorem run_emits_one_result_per_query (w : World) (self : t) :
  uncancelled w self ->
  nonnegative_delays self ->
  map result_dork (results (run w self)) = dorks self /\
  List.length (results (run w self)) = List.length (dorks self) /\
  results (run w self) =
  map (fun step => (snd step, urls_at w self (fst step) (snd step),
                    List.length (urls_at w self (fst step) (snd step))))
    (combine (seq 0 (List.length (dorks self))) (dorks self)).
Proof.
  intros Hc Hd.
  assert (E : results (run w self) =
    map (fun step => (snd step, urls_at w self (fst step) (snd step),
                      List.length (urls_at w self (fst step) (snd step))))
      (combine (seq 0 (List.length (dorks self))) (dorks self))).
  { rewrite (run_uncancelled_trace w self Hc Hd).
    rewrite results_app, results_iterations. apply app_nil_r. }
  assert (D : map result_dork (results (run w self)) = dorks self).
  { rewrite E, map_map. cbn [result_dork fst].
    change (fun x : nat * string => snd x) with (@snd nat string).
    rewrite map_snd_combine_seq. apply firstn_all. }
  split; [ exact D | split; [ | exact E ] ].
  transitivity (List.length (map result_dork (results (run w self)))).
  - symmetry. apply length_map.
  - rewrite D. reflexivity.
Qed.

Lemma run_emits_one_result_per_query_witness :
  uncancelled Examples.calm Examples.three_dorks /\
  nonnegative_delays Examples.three_dorks /\
  map result_dork (results (run Examples.calm Examples.three_dorks)) =
  ["inurl:admin"; "inurl:login"; "filetype:sql"].
Proof.
  assert (Hc : uncancelled Examples.calm Examples.three_dorks).
  { split; [ reflexivity | intros idx; reflexivity ]. }
  assert (Hd : nonnegative_delays Examples.three_dorks).
  { split; cbn; lia. }
  split; [ exact Hc | split; [ exact Hd | ] ].
  exact (proj1 (run_emits_one_result_per_query _ _ Hc Hd)).
Defined.

(** C4.  A transport failure of the request of query [j] (an exception of
    [requests.get], or a status outside 200..299) does not end the run: the
    [result] signal of query [j] carries no URL, every query of the list,
    those after [j] included, gets its [result] signal, and the run ends
    with [finished], provided no pause fails. *)
Theorem transport_failure_is_not_fatal (w : World) (self : t) (j : nat)
    (dork : string) :
  uncancelled w self ->
  nonnegative_delays self ->
  nth_error (dorks self) j = Some dork ->
  transport_failure (requests_get w j (request_at self j dork)) = true ->
  nth_error (results (run w self)) j = Some (dork, [], 0%nat) /\
  map result_dork (results (run w self)) = dorks self /\
  (forall next, nth_error (dorks self) (S j) = Some next ->
     nth_error (results (run w self)) (S j) =
     Some (next, urls_at w self (S j) next,
           List.length (urls_at w self (S j) next))) /\
  terminal (run w self) = Some Finished.
Proof.
  intros Hc Hd Hj Hfail.
  assert (Hempty : urls_at w self j dork = []).
  { apply google_search_failure. exact Hfail. }
  assert (E : results (run w self) =
    map (fun step => (snd step, urls_at w self (fst step) (snd step),
                      List.length (urls_at w self (fst step) (snd step))))
      (combine (seq 0 (List.length (dorks self))) (dorks self))).
  { rewrite (run_uncancelled_trace w self Hc Hd).
    rewrite results_app, results_iterations. apply app_nil_r. }
  assert (Hnth : forall i d, nth_error (dorks self) i = Some d ->
            nth_error (results (run w self)) i =
            Some (d, urls_at w self i d, List.length (urls_at w self i d))).
  { intros i d Hi. rewrite E.
    rewrite nth_error_map.
    rewrite (nth_error_combine_seq (dorks self) 0 _ i d).
    - reflexivity.
    - apply nth_error_Some. congruence.
    - exact Hi. }
  repeat split.
  - rewrite (Hnth j dork Hj), Hempty. reflexivity.
  - rewrite E, map_map. cbn [result_dork fst].
    change (fun x : nat * string => snd x) with (@snd nat string).
    rewrite map_snd_combine_seq. apply firstn_all.
  - intros next Hnext. apply Hnth. exact Hnext.
  - rewrite (run_uncancelled_trace w self Hc Hd). apply terminal_app_last.
Qed.

Lemma transport_failure_is_not_fatal_witness :
  uncancelled Examples.second_times_out Examples.three_dorks /\
  nonnegative_delays Examples.three_dorks /\
  nth_error (dorks Examples.three_dorks) 1 = Some "inurl:login" /\
  nth_error (results (run Examples.second_times_out Examples.three_dorks)) 1 =
  Some ("inurl:login", [], 0%nat) /\
  terminal (run Examples.second_times_out Examples.three_dorks) = Some Finished.
Proof.
  assert (Hc : uncancelled Examples.second_times_out Examples.three_dorks).
  { split; [ reflexivity | intros idx; reflexivity ]. }
  assert (Hd : nonnegative_delays Examples.three_dorks).
  { split; cbn; lia. }
  assert (Hj : nth_error (dorks Examples.three_dorks) 1 = Some "inurl:login")
    by reflexivity.
  destruct (transport_failure_is_not_fatal Examples.second_times_out
              Examples.three_dorks 1 "inurl:login" Hc Hd Hj eq_refl)
    as (H1 & _ & _ & H4).
  split; [ exact Hc | split; [ exact Hd | split; [ exact Hj | ] ] ].
  split; [ exact H1 | exact H4 ].
Defined.

(** C5, as the code has it.  When [stop] is called after query [i] is done
    and before query [i + 1] begins, the run emits exactly [i + 1] [result]
    signals, those of the first [i + 1] queries in order, and then ends with
    [finished], the signal without payload that also ends a run that was not
    cancelled; no [error] signal is emitted. *)
Theorem stop_between_queries (w : World) (self : t) (i : nat) :
  stopped_after w self i ->
  nonnegative_delays self ->
  (i < List.length (dorks self))%nat ->
  List.length (results (run w self)) = S i /\
  map result_dork (results (run w self)) = firstn (S i) (dorks self) /\
  terminal (run w self) = Some Finished /\
  existsb is_error (run w self) = false.
Proof.
  intros Hs Hd Hi.
  rewrite (run_stopped_trace w self i Hs Hd Hi).
  assert (D : map result_dork
                (results
                   (flat_map (iteration w self (List.length (dorks self)))
                      (combine (seq 0 (S i)) (dorks self)) ++ [Finished])) =
              firstn (S i) (dorks self)).
  { rewrite results_app, results_iterations, app_nil_r, map_map.
    cbn [result_dork fst].
    change (fun x : nat * string => snd x) with (@snd nat string).
    apply map_snd_combine_seq. }
  split; [ | split; [ exact D | split ] ].
  - rewrite <- (length_map result_dork), D. apply firstn_length_le. lia.
  - apply terminal_app_last.
  - rewrite existsb_app, no_error_iterations. reflexivity.
Qed.

Lemma stop_between_queries_witness :
  stopped_after Examples.stop_after_first Examples.three_dorks 0 /\
  nonnegative_delays Examples.three_dorks /\
  (0 < List.length (dorks Examples.three_dorks))%nat /\
  List.length (results (run Examples.stop_after_first Examples.three_dorks)) = 1%nat /\
  terminal (run Examples.stop_after_first Examples.three_dorks) = Some Finished.
Proof.
  assert (Hs : stopped_after Examples.stop_after_first Examples.three_dorks 0).
  { split; [ reflexivity | split; [ | reflexivity ] ].
    intros idx Hidx. assert (idx = 0)%nat by lia. subst. reflexivity. }
  assert (Hd : nonnegative_delays Examples.three_dorks) by (split; cbn; lia).
  assert (Hi : (0 < List.length (dorks Examples.three_dorks))%nat) by (cbn; lia).
  destruct (stop_between_queries _ _ 0 Hs Hd Hi) as (H1 & _ & H3 & _).
  split; [ exact Hs | split; [ exact Hd | split; [ exact Hi | ] ] ].
  split; [ exact H1 | exact H3 ].
Defined.

(** C5, as the claim has it, fails: the run over three queries that is
    stopped after its first query and the run over the same queries that is
    never stopped both end with the same event, [finished]; so nothing that
    reads the terminal event can tell the cancelled run from the other. *)
Lemma stop_is_not_marked :
  stopped_after Examples.stop_after_first Examples.three_dorks 0 /\
  uncancelled Examples.calm Examples.three_dorks /\
  terminal (run Examples.stop_after_first Examples.three_dorks) = Some Finished /\
  terminal (run Examples.calm Examples.three_dorks) = Some Finished /\
  ~ (exists user_cancelled : Event -> bool,
       (forall e, terminal (run Examples.stop_after_first Examples.three_dorks)
                  = Some e -> user_cancelled e = true) /\
       (forall e, terminal (run Examples.calm Examples.three_dorks) = Some e ->
                  user_cancelled e = false)).
Proof.
  split; [ | split; [ | split; [ | split ] ] ].
  - split; [ reflexivity | split; [ | reflexivity ] ].
    intros idx Hidx. assert (idx = 0)%nat by lia. subst. reflexivity.
  - split; [ reflexivity | intros idx; reflexivity ].
  - reflexivity.
  - reflexivity.
  - intros (mark & Hstop & Hfull).
    specialize (Hstop Finished eq_refl). specialize (Hfull Finished eq_refl).
    congruence.
Qed.

(** C10.  In a run that is not cancelled the trace is, for each query in
    order, its [progress] signal, its request, its [result] signal and then
    the pause, followed by [finished].  Hence no pause comes before the first
    request, and when there is a query the trace ends with the last [result]
    signal, one more pause, and [finished]. *)
Theorem delay_follows_every_result (w : World) (self : t) :
  uncancelled w self ->
  nonnegative_delays self ->
  run w self =
    flat_map (iteration w self (List.length (dorks self)))
      (combine (seq 0 (List.length (dorks self))) (dorks self)) ++ [Finished] /\
  (forall before request after,
     run w self = before ++ Get request :: after ->
     requests before = [] -> sleeps before = []) /\
  (forall first rest, dorks self = first ++ [rest] ->
     exists before urls,
       run w self =
       before ++ [ Result rest urls (List.length urls);
                   Sleep (delay_at w self (List.length first));
                   Finished ]).
Proof.
  intros Hc Hd.
  assert (E := run_uncancelled_trace w self Hc Hd).
  split; [ exact E | split ].
  - intros before request after Hsplit Hnone.
    rewrite E in Hsplit.
    destruct (dorks self) as [ | dork todo ].
    + cbn in Hsplit. destruct before as [ | e [ | e' before ] ]; discriminate Hsplit.
    + cbn [List.length seq combine flat_map iteration app] in Hsplit.
      destruct before as [ | e1 [ | e2 before ] ]; [ reflexivity | | ].
      * cbn [app] in Hsplit. injection Hsplit as H1 _. subst e1. reflexivity.
      * cbn [app] in Hsplit. injection Hsplit as H1 H2 _. subst e1 e2.
        discriminate Hnone.
  - intros first rest Hdorks.
    rewrite E, Hdorks, combine_seq_snoc, flat_map_app.
    cbn [flat_map iteration]. rewrite app_nil_r, Nat.add_0_l.
    exists (flat_map (iteration w self (List.length (first ++ [rest])))
              (combine (seq 0 (List.length first)) first)
            ++ [ Progress ("Searching: " ++ rest) (List.length first + 1)
                   (List.length (first ++ [rest]));
                 Get (request_at self (List.length first) rest) ]),
           (urls_at w self (List.length first) rest).
    rewrite <- !app_assoc. reflexivity.
Qed.

Lemma delay_follows_every_result_witness :
  uncancelled Examples.calm Examples.three_dorks /\
  nonnegative_delays Examples.three_dorks /\
  List.length (sleeps (run Examples.calm Examples.three_dorks)) = 3%nat.
Proof.
  assert (Hc : uncancelled Examples.calm Examples.three_dorks).
  { split; [ reflexivity | intros idx; reflexivity ]. }
  assert (Hd : nonnegative_delays Examples.three_dorks) by (split; cbn; lia).
  split; [ exact Hc | split; [ exact Hd | ] ].
  rewrite (proj1 (delay_follows_every_result _ _ Hc Hd)). reflexivity.
Defined.

(** *** Any run, cancelled or failing or neither *)

(** The requests of the loop are those of its iterations, in order. *)
Lemma for_loop_requests (w : World) (self : t) (total : nat) :
  forall (todo : list string) (idx proxy_index i : nat) (request : Request),
    index_in_step self idx proxy_index ->
    nth_error (requests (fst (for_loop w self total idx proxy_index todo))) i
      = Some request ->
    exists dork, nth_error todo i = Some dork /\
                 request = request_at self (idx + i) dork.
Proof.
  induction todo as [ | dork todo IH ]; intros idx proxy_index i request Hpi Hi.
  - destruct i; discriminate Hi.
  - rewrite for_loop_cons in Hi.
    destruct (stop_called w idx || negb (running self));
      [ destruct i; discriminate Hi | ].
    destruct (select_proxy_step self idx proxy_index Hpi) as [Hp Hnext].
    cbv zeta in Hi. rewrite Hp in Hi.
    destruct (sleep (delay_at w self idx)).
    + cbn in Hi. destruct i as [ | [ | i ] ]; try discriminate Hi.
      injection Hi as <-. exists dork. rewrite Nat.add_0_r. split; reflexivity.
    + cbn in Hi. destruct i as [ | i ].
      * injection Hi as <-. exists dork. rewrite Nat.add_0_r. split; reflexivity.
      * cbn in Hi. destruct (IH _ _ _ _ Hnext Hi) as (d & Hd & Hr).
        exists d. rewrite Nat.add_succ_r. split; assumption.
Qed.

(** The pauses of the loop are draws of [random.uniform] between the two
    bounds of the thread. *)
Lemma for_loop_sleeps (w : World) (self : t) (total : nat) :
  forall (todo : list string) (idx proxy_index : nat) (secs : Q),
    In secs (sleeps (fst (for_loop w self total idx proxy_index todo))) ->
    exists i, secs = delay_at w self i.
Proof.
  induction todo as [ | dork todo IH ]; intros idx proxy_index secs Hin.
  - destruct Hin.
  - rewrite for_loop_cons in Hin.
    destruct (stop_called w idx || negb (running self)); [ destruct Hin | ].
    cbv zeta in Hin.
    destruct (sleep (delay_at w self idx)); [ destruct Hin | ].
    cbn in Hin. destruct Hin as [ <- | Hin ].
    + exists idx. reflexivity.
    + apply (IH _ _ _ Hin).
Qed.

Lemma run_requests (w : World) (self : t) :
  requests (run w self) =
  requests (fst (for_loop w self (List.length (dorks self)) 0 0 (dorks self))).
Proof.
  unfold run.
  destruct (for_loop w self (List.length (dorks self)) 0 0 (dorks self))
    as [events [ exc | ]]; rewrite requests_app; apply app_nil_r.
Qed.

Lemma run_sleeps (w : World) (self : t) :
  sleeps (run w self) =
  sleeps (fst (for_loop w self (List.length (dorks self)) 0 0 (dorks self))).
Proof.
  unfold run.
  destruct (for_loop w self (List.length (dorks self)) 0 0 (dorks self))
    as [events [ exc | ]]; rewrite sleeps_app; apply app_nil_r.
Qed.

(** C6.  In every run the request of the [i]-th query ([i] counted from 0)
    goes through [proxies[i mod m]] when the pool has [m > 0] entries (the
    [proxies] argument maps both schemes to that entry), and every request
    goes without proxy when the pool is empty.  A run that is not cancelled
    sends one request per query, so over [k] queries the entries are taken
    in the order [0, 1, ..., m - 1, 0, 1, ...]. *)
Theorem proxies_rotate_round_robin (w : World) (self : t) :
  (proxies self <> [] ->
   forall i request,
     nth_error (requests (run w self)) i = Some request ->
     proxies_dict request =
     make_proxies_dict
       (nth_error (proxies self) (i mod List.length (proxies self)))) /\
  (proxies self = [] ->
   forall request,
     In request (requests (run w self)) -> proxies_dict request = None) /\
  (uncancelled w self -> nonnegative_delays self ->
   List.length (requests (run w self)) = List.length (dorks self)).
Proof.
  split; [ | split ].
  - intros Hpool i request Hi. rewrite run_requests in Hi.
    destruct (for_loop_requests w self _ _ 0 0 i request
                (or_intror eq_refl) Hi) as (dork & _ & ->).
    cbn [request_at google_search_request proxies_dict Nat.add].
    unfold proxy_at, Py.item. destruct (proxies self); [ contradiction | ].
    reflexivity.
  - intros Hpool request Hin. rewrite run_requests in Hin.
    apply In_nth_error in Hin. destruct Hin as (i & Hi).
    destruct (for_loop_requests w self _ _ 0 0 i request
                (or_intror eq_refl) Hi) as (dork & _ & ->).
    cbn [request_at google_search_request proxies_dict].
    unfold proxy_at. rewrite Hpool. reflexivity.
  - intros Hc Hd. rewrite (run_uncancelled_trace w self Hc Hd).
    rewrite requests_app, requests_iterations, app_nil_r, length_map.
    rewrite length_combine, length_seq. apply Nat.min_id.
Qed.

Lemma proxies_rotate_round_robin_witness :
  proxies Examples.five_dorks <> [] /\
  map proxies_dict (requests (run Examples.calm Examples.five_dorks)) =
  map (fun i => make_proxies_dict (nth_error (proxies Examples.five_dorks) i))
    [0; 1; 2; 0; 1]%nat /\
  proxies_dict
    (nth 4 (requests (run Examples.calm Examples.five_dorks))
       {| search_url := ""; proxies_dict := None |}) =
  make_proxies_dict (nth_error (proxies Examples.five_dorks) (4 mod 3)).
Proof.
  assert (Hpool : proxies Examples.five_dorks <> []) by discriminate.
  split; [ exact Hpool | split; [ reflexivity | ] ].
  apply (proj1 (proxies_rotate_round_robin Examples.calm Examples.five_dorks)
           Hpool 4%nat).
  reflexivity.
Defined.

(** C9, as the claim has it, fails.  [run] takes the two bounds as they
    come: for the bounds 10 and 5 the one pause of the run is 7.5 seconds,
    which is below the minimum. *)
Lemma delay_below_minimum :
  exists secs,
    In secs (sleeps (run Examples.halfway Examples.inverted_delays)) /\
    (secs == 15 # 2)%Q /\
    ~ (inject_Z (min_delay Examples.inverted_delays) <= secs)%Q.
Proof.
  exists (delay_at Examples.halfway Examples.inverted_delays 0).
  split; [ left; reflexivity | ].
  split; [ vm_compute; reflexivity | ].
  vm_compute. intros H. apply H. reflexivity.
Qed.

(** C9, as the code has it.  With bounds [min_delay <= max_delay] of a size
    that a float holds exactly, every delay drawn for an iteration, and so
    every pause of every run, lies between [min_delay] and [max_delay]; with
    equal bounds it is [min_delay].  (Delays are exact rationals here; the
    rounding of the code's floats to the nearest one is monotone and keeps
    the integers of that size, so it keeps a draw within the same bounds.) *)
Theorem delays_within_bounds (w : World) (self : t) :
  moderate_delays self ->
  (min_delay self <= max_delay self)%Z ->
  (forall idx,
     (inject_Z (min_delay self) <= delay_at w self idx)%Q /\
     (delay_at w self idx <= inject_Z (max_delay self))%Q /\
     (min_delay self = max_delay self ->
      (delay_at w self idx == inject_Z (min_delay self))%Q)) /\
  (forall secs,
     In secs (sleeps (run w self)) ->
     (inject_Z (min_delay self) <= secs)%Q /\
     (secs <= inject_Z (max_delay self))%Q /\
     (min_delay self = max_delay self ->
      (secs == inject_Z (min_delay self))%Q)).
Proof.
  intros _ Hle.
  assert (Hdraw : forall idx,
     (inject_Z (min_delay self) <= delay_at w self idx)%Q /\
     (delay_at w self idx <= inject_Z (max_delay self))%Q /\
     (min_delay self = max_delay self ->
      (delay_at w self idx == inject_Z (min_delay self))%Q)).
  { intros idx. unfold delay_at.
    destruct (uniform_between _ _ (random_bits w idx) Hle) as [H1 H2].
    split; [ exact H1 | split; [ exact H2 | ] ].
    intros E. rewrite <- E. apply uniform_fixed. }
  split; [ exact Hdraw | ].
  intros secs Hin. rewrite run_sleeps in Hin.
  destruct (for_loop_sleeps w self _ _ _ _ secs Hin) as (i & ->).
  apply Hdraw.
Qed.

Lemma delays_within_bounds_witness :
  moderate_delays Examples.three_dorks /\
  (min_delay Examples.three_dorks <= max_delay Examples.three_dorks)%Z /\
  In (delay_at Examples.calm Examples.three_dorks 1)
     (sleeps (run Examples.calm Examples.three_dorks)) /\
  (2 <= delay_at Examples.calm Examples.three_dorks 1)%Q /\
  (delay_at Examples.calm Examples.three_dorks 1 <= 5)%Q.
Proof.
  assert (Hsize : moderate_delays Examples.three_dorks)
    by (unfold moderate_delays, sleep_limit; cbn; lia).
  assert (Hle : (min_delay Examples.three_dorks
                 <= max_delay Examples.three_dorks)%Z) by (cbn; lia).
  assert (Hin : In (delay_at Examples.calm Examples.three_dorks 1)
                   (sleeps (run Examples.calm Examples.three_dorks))).
  { right; left; reflexivity. }
  destruct (proj2 (delays_within_bounds Examples.calm Examples.three_dorks
                     Hsize Hle) _ Hin) as (H1 & H2 & _).
  split; [ exact Hsize | ].
  split; [ exact Hle | split; [ exact Hin | split; [ exact H1 | exact H2 ] ] ].
Defined.

End Runs.

(** ** The URLs [google_search] returns *)

Section GoogleSearch.
Import DorkSearchThread.

Lemma collect_urls_length (max_results : Z) (links : list Tag) :
  forall urls,
    (Z.of_nat (List.length (collect_urls max_results links urls))
     <= Z.max (Z.of_nat (List.length urls) + 1) max_results)%Z.
Proof.
  induction links as [ | link links IH ]; intros urls; cbn [collect_urls].
  - lia.
  - destruct (Py.contains "/url?q=" (Tag_get link "href" "")); [ | apply IH ].
    destruct (Py.item _ 1) as [ after | ]; [ | lia ].
    destruct (Py.item _ 0) as [ url | ]; [ | lia ].
    destruct (Py.startswith (Py.unquote url) "http"); [ | apply IH ].
    destruct (Z.geb_spec (Z.of_nat (List.length (urls ++ [Py.unquote url])))
                max_results) as [Hfull | Hroom].
    + rewrite length_app in *. cbn [List.length] in *. lia.
    + specialize (IH (urls ++ [Py.unquote url])).
      rewrite length_app in *. cbn [List.length] in *. lia.
Qed.

Lemma collect_urls_prefix (max_results : Z) (links : list Tag) :
  forall urls,
    Forall (fun url => Py.startswith url "http" = true) urls ->
    Forall (fun url => Py.startswith url "http" = true)
      (collect_urls max_results links urls).
Proof.
  induction links as [ | link links IH ]; intros urls Hurls; cbn [collect_urls].
  - exact Hurls.
  - destruct (Py.contains "/url?q=" (Tag_get link "href" ""));
      [ | apply IH; exact Hurls ].
    destruct (Py.item _ 1) as [ after | ]; [ | exact Hurls ].
    destruct (Py.item _ 0) as [ url | ]; [ | exact Hurls ].
    destruct (Py.startswith (Py.unquote url) "http") eqn:Hhttp;
      [ | apply IH; exact Hurls ].
    assert (Hnew : Forall (fun url => Py.startswith url "http" = true)
                     (urls ++ [Py.unquote url])).
    { apply Forall_app. split; [ exact Hurls | ].
      constructor; [ exact Hhttp | constructor ]. }
    destruct (Z.of_nat _ >=? max_results)%Z; [ exact Hnew | apply IH; exact Hnew ].
Qed.

(** C7, as the code has it.  Whatever [requests.get] does and whatever the
    bound, [google_search] returns at most [max(1, max_results)] URLs, so at
    most [max_results] of them for a bound of at least 1, and each URL it
    returns starts with the four characters [http]. *)
Theorem google_search_bounded (get : Request -> GetOutcome) (query : string)
    (proxy : option string) (max_results : Z) :
  (Z.of_nat (List.length (google_search get query proxy max_results))
   <= Z.max 1 max_results)%Z /\
  ((1 <= max_results)%Z ->
   (Z.of_nat (List.length (google_search get query proxy max_results))
    <= max_results)%Z) /\
  Forall (fun url => Py.startswith url "http" = true)
    (google_search get query proxy max_results).
Proof.
  assert (L : (Z.of_nat (List.length (google_search get query proxy max_results))
               <= Z.max 1 max_results)%Z).
  { unfold google_search. destruct (get _) as [ exc | response ]; [ cbn; lia | ].
    destruct (status_code response =? 200)%Z; [ | cbn; lia ].
    apply (collect_urls_length max_results (anchors response) []). }
  split; [ exact L | split; [ lia | ] ].
  unfold google_search. destruct (get _) as [ exc | response ]; [ constructor | ].
  destruct (status_code response =? 200)%Z; [ | constructor ].
  apply collect_urls_prefix. constructor.
Qed.

Lemma google_search_bounded_witness :
  (1 <= 2)%Z /\
  (Z.of_nat (List.length
     (google_search (fun _ => Returns Examples.ok_page) "inurl:admin" None 2))
   <= 2)%Z.
Proof.
  split; [ lia | ].
  apply (proj1 (proj2 (google_search_bounded
                         (fun _ => Returns Examples.ok_page) "inurl:admin"
                         None 2))).
  lia.
Defined.

(** C7, as the claim has it, fails on both counts.  For a page with a link
    to [/url?q=httpfoo&sa=U] the text [httpfoo] is returned, which is not an
    absolute http or https URL; and with the bound 0 one URL is returned. *)
Lemma google_search_not_only_urls :
  google_search (fun _ => Returns Examples.ok_page) "inurl:admin" None 10 =
    ["http://x.com/view.php?id=5"; "httpfoo"; "https://b.org/"] /\
  ~ Forall (fun url => is_absolute_http_url url = true)
      (google_search (fun _ => Returns Examples.ok_page) "inurl:admin" None 10) /\
  ~ (Z.of_nat (List.length
       (google_search (fun _ => Returns Examples.ok_page) "inurl:admin" None 0))
     <= 0)%Z.
Proof.
  split; [ reflexivity | split ].
  - intros H. inversion H as [ | u us _ H2 ]; subst.
    inversion H2 as [ | u' us' Hfoo _ ]; subst. discriminate Hfoo.
  - cbn. lia.
Qed.

End GoogleSearch.

(** ** [ParameterExtractor.extract_parameters] *)

Section Parameters.
Import ParameterExtractor.

Lemma lookup_add_value (d : list (string * list string)) (name value key : string) :
  lookup (Urllib.add_value d name value) key =
  if String.eqb name key
  then Some (match lookup d key with
             | Some vs => vs ++ [value]
             | None => [value]
             end)
  else lookup d key.
Proof.
  induction d as [ | [k vs] d IH ]; cbn [Urllib.add_value lookup].
  - destruct (String.eqb_spec name key); reflexivity.
  - destruct (String.eqb_spec k name) as [ -> | Hk ]; cbn [lookup].
    + destruct (String.eqb_spec name key); reflexivity.
    + destruct (String.eqb_spec k key) as [ -> | Hkey ].
      * destruct (String.eqb_spec name key); [ congruence | reflexivity ].
      * exact IH.
Qed.

Lemma keys_add_value (d : list (string * list string)) (name value : string) :
  NoDup (map fst d) ->
  NoDup (map fst (Urllib.add_value d name value)) /\
  (forall k, In k (map fst (Urllib.add_value d name value)) ->
             k = name \/ In k (map fst d)).
Proof.
  induction d as [ | [k vs] d IH ]; cbn [Urllib.add_value map fst]; intros Hd.
  - split; [ constructor; [ intros [] | constructor ] | ].
    intros k [ <- | [] ]. left; reflexivity.
  - inversion Hd as [ | k' ks Hk Hks ]; subst.
    destruct (String.eqb_spec k name) as [ -> | Hneq ]; cbn [map fst].
    + split; [ exact Hd | ]. intros k' Hin. right; exact Hin.
    + destruct (IH Hks) as [Hnodup Hkeys]. split.
      * constructor; [ | exact Hnodup ].
        intros Hin. destruct (Hkeys k Hin) as [ -> | Hin' ]; tauto.
      * intros k' [ <- | Hin ]; [ right; left; reflexivity | ].
        destruct (Hkeys k' Hin); [ left | right; right ]; assumption.
Qed.

Lemma lookup_fold_add (fields : list (string * string)) :
  forall (d : list (string * list string)) (key : string),
    lookup (fold_left (fun d nv => Urllib.add_value d (fst nv) (snd nv)) fields d)
      key =
    match lookup d key, values_of key fields with
    | Some vs, more => Some (vs ++ more)
    | None, [] => None
    | None, more => Some more
    end.
Proof.
  induction fields as [ | [n v] fields IH ]; intros d key.
  - cbn. destruct (lookup d key); [ rewrite app_nil_r | ]; reflexivity.
  - cbn [fold_left fst snd]. rewrite IH, lookup_add_value.
    unfold values_of. cbn [filter fst].
    destruct (String.eqb_spec n key) as [ -> | Hn ].
    + cbn [map snd]. destruct (lookup d key) as [ vs | ].
      * rewrite <- app_assoc. reflexivity.
      * reflexivity.
    + reflexivity.
Qed.

Lemma keys_fold_add (fields : list (string * string)) :
  forall d : list (string * list string),
    NoDup (map fst d) ->
    NoDup (map fst
             (fold_left (fun d nv => Urllib.add_value d (fst nv) (snd nv))
                fields d)).
Proof.
  induction fields as [ | [n v] fields IH ]; intros d Hd; [ exact Hd | ].
  cbn [fold_left fst snd]. apply IH. apply keys_add_value. exact Hd.
Qed.

Lemma lookup_flat_params (d : list (string * list string)) (key : string) :
  lookup (flat_params d) key = option_map flatten (lookup d key).
Proof.
  induction d as [ | [k vs] d IH ]; [ reflexivity | ].
  cbn [flat_params map fst snd lookup].
  destruct (String.eqb k key); [ reflexivity | exact IH ].
Qed.

Lemma keys_flat_params (d : list (string * list string)) :
  map fst (flat_params d) = map fst d.
Proof. unfold flat_params. rewrite map_map. reflexivity. Qed.

(** C8, as the code has it.  When the URL parses, the parameters returned
    form a mapping (no
    name twice) that gives each name of the query string the values of the
    fields with that name (as [parse_qsl] decodes them, fields with an
    empty value left out): the value itself when there is one, the list of
    the values in their order when there are several, and nothing when
    there is none.  In particular [http://x.com/a?id=5&id=6&name=bob] gives
    [id] the list of ["5"] and ["6"] and [name] the string ["bob"]. *)
Theorem extract_parameters_collapses :
  (forall url info,
     extract_parameters url = Parsed info ->
     exists parsed,
       Urllib.urlparse url = inr parsed /\
       NoDup (map fst (parameters info)) /\
       forall name,
         lookup (parameters info) name =
         collapse (values_of name (Urllib.parse_qsl (Urllib.query parsed)))) /\
  (exists info,
     extract_parameters "http://x.com/a?id=5&id=6&name=bob" = Parsed info /\
     parameters info = [("id", Values ["5"; "6"]); ("name", Scalar "bob")]).
Proof.
  split.
  - intros url info. unfold extract_parameters.
    destruct (Urllib.urlparse url) as [ exc | parsed ]; [ discriminate | ].
    intros H. injection H as <-. exists parsed. cbn [parameters].
    split; [ reflexivity | split ].
    + rewrite keys_flat_params. unfold Urllib.parse_qs.
      apply keys_fold_add. constructor.
    + intros name. rewrite lookup_flat_params. unfold Urllib.parse_qs.
      rewrite lookup_fold_add. cbn [lookup].
      destruct (values_of name _) as [ | v [ | v' vs ] ]; reflexivity.
  - exists {| url := "http://x.com/a?id=5&id=6&name=bob"; scheme := "http";
              domain := "x.com"; path := "/a";
              parameters := [("id", Values ["5"; "6"]); ("name", Scalar "bob")];
              fragment := "" |}.
    split; vm_compute; reflexivity.
Qed.

Lemma extract_parameters_collapses_witness :
  exists info,
    extract_parameters "http://x.com/a?id=5&id=6&name=bob" = Parsed info /\
    lookup (parameters info) "id" = Some (Values ["5"; "6"]) /\
    lookup (parameters info) "name" = Some (Scalar "bob") /\
    lookup (parameters info) "page" = None.
Proof.
  exists {| url := "http://x.com/a?id=5&id=6&name=bob"; scheme := "http";
            domain := "x.com"; path := "/a";
            parameters := [("id", Values ["5"; "6"]); ("name", Scalar "bob")];
            fragment := "" |}.
  assert (E : extract_parameters "http://x.com/a?id=5&id=6&name=bob" =
              Parsed {| url := "http://x.com/a?id=5&id=6&name=bob";
                        scheme := "http"; domain := "x.com"; path := "/a";
                        parameters := [("id", Values ["5"; "6"]);
                                       ("name", Scalar "bob")];
                        fragment := "" |}) by (vm_compute; reflexivity).
  split; [ exact E | ].
  destruct (proj1 extract_parameters_collapses _ _ E)
    as (parsed & Hparsed & _ & Hlookup).
  vm_compute in Hparsed. injection Hparsed as <-.
  rewrite !Hlookup. repeat split.
Defined.

(** C8, as the claim has it, fails.  [parse_qs] leaves out the fields whose
    value is empty, so that a name that the query string repeats can come
    back with the one value that is left, as a string and not as a list, and
    a name whose only value is empty does not come back at all. *)
Lemma extract_parameters_drops_blank_values :
  exists info,
    extract_parameters "http://x.com/a?id=5&id=&page=" = Parsed info /\
    parameters info = [("id", Scalar "5")] /\
    lookup (parameters info) "id" <> Some (Values ["5"; ""]) /\
    lookup (parameters info) "page" = None.
Proof.
  exists {| url := "http://x.com/a?id=5&id=&page="; scheme := "http";
            domain := "x.com"; path := "/a";
            parameters := [("id", Scalar "5")]; fragment := "" |}.
  split; [ vm_compute; reflexivity | ].
  split; [ reflexivity | ].
  split; [ vm_compute; discriminate | reflexivity ].
Qed.

End Parameters.

(** ** The database URLs of the window *)

Section DatabaseUrls.
Import PagodoGUI.

Lemma existsb_eqb_In (k : string) (d : list string) :
  existsb (String.eqb k) d = true <-> In k d.
Proof.
  rewrite existsb_exists. split.
  - intros (x & Hx & E). apply String.eqb_eq in E. subst. exact Hx.
  - intros H. exists k. split; [ exact H | apply String.eqb_refl ].
Qed.

Lemma dict_fromkeys_snoc (keys : list string) (k : string) :
  dict_fromkeys (keys ++ [k]) =
  if existsb (String.eqb k) (dict_fromkeys keys)
  then dict_fromkeys keys else dict_fromkeys keys ++ [k].
Proof. unfold dict_fromkeys. rewrite fold_left_app. reflexivity. Qed.

Lemma dict_fromkeys_In (keys : list string) (k : string) :
  In k (dict_fromkeys keys) <-> In k keys.
Proof.
  induction keys as [ | x keys IH ] using rev_ind; [ reflexivity | ].
  rewrite dict_fromkeys_snoc, in_app_iff. cbn [In].
  destruct (existsb (String.eqb x) (dict_fromkeys keys)) eqn:E.
  - apply existsb_eqb_In in E. rewrite IH in *. intuition (subst; auto).
  - rewrite in_app_iff, IH. cbn [In]. tauto.
Qed.

Lemma NoDup_snoc {A} (l : list A) (x : A) :
  NoDup l -> ~ In x l -> NoDup (l ++ [x]).
Proof.
  induction l as [ | y l IH ]; intros Hl Hx.
  - constructor; [ intros [] | constructor ].
  - inversion Hl as [ | y' l' Hy Hl' ]; subst. cbn [app]. constructor.
    + rewrite in_app_iff. cbn [In] in *. intuition.
    + apply IH; [ exact Hl' | ]. cbn [In] in Hx. tauto.
Qed.

Lemma dict_fromkeys_NoDup (keys : list string) : NoDup (dict_fromkeys keys).
Proof.
  induction keys as [ | x keys IH ] using rev_ind; [ constructor | ].
  rewrite dict_fromkeys_snoc.
  destruct (existsb (String.eqb x) (dict_fromkeys keys)) eqn:E; [ exact IH | ].
  apply NoDup_snoc; [ exact IH | ].
  intros Hin. apply existsb_eqb_In in Hin. congruence.
Qed.

Lemma dict_fromkeys_length (keys : list string) :
  (List.length (dict_fromkeys keys) <= List.length keys)%nat.
Proof.
  induction keys as [ | x keys IH ] using rev_ind; [ cbn; lia | ].
  rewrite dict_fromkeys_snoc.
  destruct (existsb _ _); rewrite ?length_app; cbn [List.length]; lia.
Qed.

(** When nothing is dropped the list is left as it is. *)
Lemma dict_fromkeys_same_length (keys : list string) :
  List.length (dict_fromkeys keys) = List.length keys ->
  dict_fromkeys keys = keys.
Proof.
  induction keys as [ | x keys IH ] using rev_ind; [ reflexivity | ].
  rewrite dict_fromkeys_snoc. assert (L := dict_fromkeys_length keys).
  destruct (existsb _ _); rewrite ?length_app; cbn [List.length]; intros H.
  - lia.
  - rewrite IH by lia. reflexivity.
Qed.

Lemma first_index_lt (urls : list string) (url : string) :
  In url urls -> (first_index urls url < List.length urls)%nat.
Proof.
  induction urls as [ | u urls IH ]; intros Hin; [ destruct Hin | ].
  cbn [first_index List.length].
  destruct (String.eqb_spec u url) as [ | Hneq ]; [ lia | ].
  destruct Hin as [ | Hin ]; [ contradiction | ]. specialize (IH Hin). lia.
Qed.

Lemma first_index_app (urls : list string) (x url : string) :
  In url urls -> first_index (urls ++ [x]) url = first_index urls url.
Proof.
  induction urls as [ | u urls IH ]; intros Hin; [ destruct Hin | ].
  cbn [first_index app].
  destruct (String.eqb_spec u url) as [ | Hneq ]; [ reflexivity | ].
  destruct Hin as [ | Hin ]; [ contradiction | ]. rewrite IH by exact Hin.
  reflexivity.
Qed.

Lemma first_index_new (urls : list string) (x : string) :
  ~ In x urls -> first_index (urls ++ [x]) x = List.length urls.
Proof.
  induction urls as [ | u urls IH ]; intros Hnot; cbn [first_index app List.length].
  - rewrite String.eqb_refl. reflexivity.
  - cbn [In] in Hnot. destruct (String.eqb_spec u x) as [ | Hneq ]; [ tauto | ].
    rewrite IH by tauto. reflexivity.
Qed.

Lemma StronglySorted_snoc (l : list nat) (n : nat) :
  StronglySorted lt l -> Forall (fun m => (m < n)%nat) l ->
  StronglySorted lt (l ++ [n]).
Proof.
  induction l as [ | m l IH ]; intros Hs Hlt; cbn [app].
  - constructor; constructor.
  - inversion Hs as [ | m' l' Hs' Hm ]; subst.
    inversion Hlt as [ | m' l' Hmn Hlt' ]; subst.
    constructor; [ apply IH; assumption | ].
    apply Forall_app. split; [ exact Hm | constructor; [ exact Hmn | constructor ] ].
Qed.

(** The keys stand in the order of their first occurrences. *)
Lemma dict_fromkeys_order (keys : list string) :
  StronglySorted lt (map (first_index keys) (dict_fromkeys keys)).
Proof.
  induction keys as [ | x keys IH ] using rev_ind; [ constructor | ].
  assert (Hsame : map (first_index (keys ++ [x])) (dict_fromkeys keys) =
                  map (first_index keys) (dict_fromkeys keys)).
  { apply map_ext_in. intros u Hu. apply first_index_app.
    apply dict_fromkeys_In. exact Hu. }
  rewrite dict_fromkeys_snoc.
  destruct (existsb (String.eqb x) (dict_fromkeys keys)) eqn:E.
  - rewrite Hsame. exact IH.
  - rewrite map_app, Hsame. cbn [map].
    assert (Hnew : ~ In x keys).
    { intros Hin. apply dict_fromkeys_In, existsb_eqb_In in Hin. congruence. }
    rewrite first_index_new by exact Hnew.
    apply StronglySorted_snoc; [ exact IH | ].
    apply Forall_forall. intros m Hm. apply in_map_iff in Hm.
    destruct Hm as (u & <- & Hu). apply first_index_lt.
    apply dict_fromkeys_In. exact Hu.
Qed.

Lemma filter_database_urls_fromkeys (self : t) :
  database_urls (filter_database_urls self) = dict_fromkeys (database_urls self).
Proof.
  unfold filter_database_urls.
  destruct (Nat.eqb_spec (List.length (dict_fromkeys (database_urls self)))
              (List.length (database_urls self))) as [E | _]; cbn [negb].
  - symmetry. apply dict_fromkeys_same_length. exact E.
  - reflexivity.
Qed.

Lemma add_url_database_urls (dork : string) (self : t) (url : string) :
  database_urls (add_url dork self url) =
  database_urls self ++ filter ParameterExtractor.is_database_url [url].
Proof.
  unfold add_url. cbn [filter].
  destruct (ParameterExtractor.is_database_url url); cbn [database_urls
    set_database_urls set_search_results]; [ reflexivity | ].
  symmetry. apply app_nil_r.
Qed.

Lemma on_search_result_database_urls (dork : string) (urls : list string) :
  forall self,
    database_urls (on_search_result self dork urls) =
    database_urls self ++ filter ParameterExtractor.is_database_url urls.
Proof.
  unfold on_search_result.
  induction urls as [ | url urls IH ]; intros self.
  - cbn. symmetry. apply app_nil_r.
  - cbn [fold_left]. rewrite IH, add_url_database_urls, <- app_assoc.
    f_equal. cbn [filter].
    destruct (ParameterExtractor.is_database_url url); reflexivity.
Qed.

(** The collection after the signals of a trace have been handled. *)
Lemma handle_database_urls (tr : list DorkSearchThread.Event) :
  forall self,
    database_urls (fold_left handle tr self) =
    database_urls self
      ++ flat_map (fun r => filter ParameterExtractor.is_database_url
                              (DorkSearchThread.result_urls r))
           (DorkSearchThread.results tr).
Proof.
  induction tr as [ | e tr IH ]; intros self.
  - cbn. symmetry. apply app_nil_r.
  - cbn [fold_left]. rewrite IH.
    destruct e; cbn [handle DorkSearchThread.results]; try reflexivity.
    rewrite on_search_result_database_urls, <- app_assoc. reflexivity.
Qed.

(** [analyze_url], the other place that adds to the collection, adds a
    URL only when it is not there yet. *)
Lemma analyze_url_NoDup (self : t) (text : string) :
  NoDup (database_urls self) -> NoDup (database_urls (analyze_url self text)).
Proof.
  intros H. unfold analyze_url.
  destruct (String.eqb (Py.strip text) ""); [ exact H | ].
  destruct (ParameterExtractor.is_database_url (Py.strip text));
    cbn [andb]; [ | exact H ].
  destruct (existsb _ _) eqn:E; cbn [negb]; [ exact H | ].
  cbn [database_urls set_database_urls]. apply NoDup_snoc; [ exact H | ].
  intros Hin. apply existsb_eqb_In in Hin. congruence.
Qed.

(** C2, as the code has it.  Handling a result appends to the collection
    every database-like URL of the result, in order, whether or not it is
    there already, so that after the signals of a run the collection holds
    the database-like URLs of all its results, in order of arrival.  The
    collection is deduplicated on demand: after [filter_database_urls] it
    has no URL twice, it has the same URLs as before, and they stand in the
    order of their first occurrences. *)
Theorem database_urls_deduplicated_on_demand (self : t) :
  (forall dork urls,
     database_urls (on_search_result self dork urls) =
     database_urls self ++ filter ParameterExtractor.is_database_url urls) /\
  (forall tr,
     database_urls (fold_left handle tr self) =
     database_urls self
       ++ flat_map (fun r => filter ParameterExtractor.is_database_url
                               (DorkSearchThread.result_urls r))
            (DorkSearchThread.results tr)) /\
  NoDup (database_urls (filter_database_urls self)) /\
  (forall url, In url (database_urls (filter_database_urls self)) <->
               In url (database_urls self)) /\
  StronglySorted lt
    (map (first_index (database_urls self))
       (database_urls (filter_database_urls self))).
Proof.
  rewrite filter_database_urls_fromkeys.
  split; [ | split; [ | split; [ | split ] ] ].
  - intros dork urls. apply on_search_result_database_urls.
  - intros tr. apply handle_database_urls.
  - apply dict_fromkeys_NoDup.
  - intros url. apply dict_fromkeys_In.
  - apply dict_fromkeys_order.
Qed.

(** C2, as the claim has it, fails: two results that hold the same
    database-like URL leave it twice in the collection. *)
Lemma database_urls_keep_duplicates :
  database_urls
    (on_search_result
       (on_search_result Examples.window "inurl:view"
          ["http://x.com/view.php?id=5"])
       "inurl:php" ["http://x.com/view.php?id=5"; "http://x.com/about"]) =
    ["http://x.com/view.php?id=5"; "http://x.com/view.php?id=5"] /\
  ~ NoDup
      (database_urls
         (on_search_result
            (on_search_result Examples.window "inurl:view"
               ["http://x.com/view.php?id=5"])
            "inurl:php" ["http://x.com/view.php?id=5"; "http://x.com/about"])).
Proof.
  assert (E : database_urls
    (on_search_result
       (on_search_result Examples.window "inurl:view"
          ["http://x.com/view.php?id=5"])
       "inurl:php" ["http://x.com/view.php?id=5"; "http://x.com/about"]) =
    ["http://x.com/view.php?id=5"; "http://x.com/view.php?id=5"])
    by (vm_compute; reflexivity).
  split; [ exact E | ]. rewrite E. intros H.
  inversion H as [ | u us Hnot _ ]; subst. apply Hnot. left; reflexivity.
Qed.

End DatabaseUrls.

(** ** Starting a search *)

Section Start.
Import DorkSearchThread.

(** The window of [pagodo_gui_pyqt6.py] starts nothing without dorks. *)
Lemma start_search_needs_dorks (self : PagodoGUI.t) :
  PagodoGUI.dorks self = [] ->
  PagodoGUI.start_search self =
  PagodoGUI.Warning "No Dorks" "Please fetch or load dorks first!".
Proof. intros E. unfold PagodoGUI.start_search. rewrite E. reflexivity. Qed.

(** The thread it starts has the values of the spin boxes, which lie in
    their ranges: the delays are not negative and the bound on the results
    is positive.  Their order is not looked at. *)
Lemma start_search_ranges (self self' : PagodoGUI.t) (thread : t) :
  PagodoGUI.start_search self = PagodoGUI.Started self' thread ->
  running thread = true /\ dorks thread = PagodoGUI.dorks self /\
  (1 <= max_results thread <= 1000)%Z /\
  (1 <= min_delay thread <= 60)%Z /\ (1 <= max_delay thread <= 120)%Z /\
  nonnegative_delays thread.
Proof.
  unfold PagodoGUI.start_search, nonnegative_delays.
  destruct (PagodoGUI.dorks self) eqn:E; [ discriminate | ].
  intros H. injection H as _ <-. cbn. rewrite E.
  unfold PagodoGUI.value. repeat split; lia.
Qed.

(** The window of [pagodo_gui.py] launches nothing when the minimum delay
    exceeds the maximum delay. *)
Lemma start_search5_rejects_inverted_delays (self : PagodoGUI5.t) :
  (PagodoGUI5.max_delay_spin self < PagodoGUI5.min_delay_spin self)%Q ->
  forall config, PagodoGUI5.start_search self <> PagodoGUI5.Launched config.
Proof.
  intros Hlt config. unfold PagodoGUI5.start_search.
  destruct (PagodoGUI5.thread_is_running self); [ discriminate | ].
  destruct (PagodoGUI5.dork_file_exists self); cbn [negb]; [ | discriminate ].
  destruct (Qle_bool _ _) eqn:E; cbn [negb]; [ | discriminate ].
  apply Qle_bool_iff in E. apply Qle_not_lt in E. contradiction.
Qed.

(** C3, on the code.  With the minimum delay at 10 and the maximum at 5 the
    window of [pagodo_gui_pyqt6.py] shows no warning: it constructs the
    thread with these two bounds and starts it, and the run sends its
    request and pauses for 7.5 seconds, which is less than the minimum.
    The window of [pagodo_gui.py] answers the same two delays with the
    warning "Invalid delays". *)
Theorem start_search_accepts_inverted_delays :
  PagodoGUI.start_search Examples.inverted_window =
    PagodoGUI.Started Examples.inverted_window Examples.inverted_delays /\
  (max_delay Examples.inverted_delays < min_delay Examples.inverted_delays)%Z /\
  requests (run Examples.halfway Examples.inverted_delays) =
    [ {| search_url := "https://www.google.com/search?q=inurl:admin&num=50";
         proxies_dict := None |} ] /\
  Forall (fun secs => (secs == 15 # 2)%Q /\
                      ~ (inject_Z (min_delay Examples.inverted_delays) <= secs)%Q)
    (sleeps (run Examples.halfway Examples.inverted_delays)) /\
  List.length (sleeps (run Examples.halfway Examples.inverted_delays)) = 1%nat /\
  PagodoGUI5.start_search Examples.inverted_window5 =
    PagodoGUI5.Warning "Invalid delays"
      "Minimum delay must be less than or equal to the maximum delay.".
Proof.
  split; [ vm_compute; reflexivity | ].
  split; [ cbn; lia | ].
  split; [ vm_compute; reflexivity | ].
  split; [ | split; vm_compute; reflexivity ].
  constructor; [ | constructor ].
  split; [ vm_compute; reflexivity | ].
  vm_compute. intros H. apply H. reflexivity.
Qed.

End Start.

(** * Further properties *)

(** ** What [google_search] returns *)

Section ResultLinks.
Import DorkSearchThread ResultPage.

Lemma split_from_length (sep : string) (s : string) :
  forall skip cur, (1 <= List.length (Py.split_from sep skip cur s))%nat.
Proof.
  induction s as [ | c s IH ]; intros skip cur; cbn [Py.split_from].
  - cbn. lia.
  - destruct skip as [ | k ]; [ | apply IH ].
    destruct (String.prefix sep (String c s)); [ cbn; lia | apply IH ].
Qed.

(** A separator that occurs in [s] leaves a piece after its first
    occurrence. *)
Lemma split_after_separator (a : ascii) (sep' : string) (s : string) :
  forall cur,
    Py.contains (String a sep') s = true ->
    (2 <= List.length (Py.split_from (String a sep') 0 cur s))%nat.
Proof.
  induction s as [ | c s IH ]; intros cur Hin.
  - cbn in Hin. discriminate Hin.
  - cbn [Py.contains] in Hin. cbn [Py.split_from].
    destruct (String.prefix (String a sep') (String c s)) eqn:E.
    + cbn [List.length].
      assert (H := split_from_length (String a sep') s
                     (String.length (String a sep') - 1) EmptyString).
      lia.
    + cbn [orb] in Hin. apply IH. exact Hin.
Qed.

Lemma item_of_length {A} (l : list A) (i : nat) :
  (i < List.length l)%nat -> exists x, Py.item l i = Some x.
Proof.
  intros H. unfold Py.item. destruct (nth_error l i) as [ x | ] eqn:E.
  - exists x. reflexivity.
  - apply nth_error_None in E. lia.
Qed.

(** One turn of the loop of [google_search], in terms of the text the
    anchor contributes: no subscript of the loop can fail. *)
Lemma collect_urls_step (max_results : Z) (link : Tag) (links : list Tag)
    (urls : list string) :
  collect_urls max_results (link :: links) urls =
  match wrapped_target link with
  | None => collect_urls max_results links urls
  | Some url =>
      if (Z.of_nat (List.length (urls ++ [url])) >=? max_results)%Z
      then urls ++ [url]
      else collect_urls max_results links (urls ++ [url])
  end.
Proof.
  cbn [collect_urls]. unfold wrapped_target.
  destruct (Py.contains "/url?q=" (Tag_get link "href" "")) eqn:Hin;
    [ | reflexivity ].
  destruct (item_of_length (Py.split (Tag_get link "href" "") "/url?q=") 1)
    as (after & ->).
  { unfold Py.split. apply split_after_separator. exact Hin. }
  destruct (item_of_length (Py.split after "&") 0) as (url & ->).
  { unfold Py.split. apply split_from_length. }
  destruct (Py.startswith (Py.unquote url) "http"); reflexivity.
Qed.

Lemma collect_urls_firstn (max_results : Z) (links : list Tag) :
  forall urls,
    (List.length urls < cap max_results)%nat ->
    collect_urls max_results links urls =
    urls ++ firstn (cap max_results - List.length urls) (wrapped_targets links).
Proof.
  unfold cap.
  induction links as [ | link links IH ]; intros urls Hroom.
  - cbn. rewrite firstn_nil, app_nil_r. reflexivity.
  - rewrite collect_urls_step. unfold wrapped_targets. cbn [flat_map].
    fold (wrapped_targets links).
    destruct (wrapped_target link) as [ url | ]; [ | apply IH; exact Hroom ].
    cbn [app]. rewrite length_app. cbn [List.length].
    destruct (Z.geb_spec (Z.of_nat (List.length urls + 1)) max_results)
      as [Hfull | Hmore].
    + replace (Z.to_nat (Z.max 1 max_results) - List.length urls)%nat
        with 1%nat by lia.
      cbn [firstn]. reflexivity.
    + rewrite IH by (rewrite length_app; cbn [List.length]; lia).
      rewrite length_app. cbn [List.length]. rewrite <- app_assoc. cbn [app].
      replace (Z.to_nat (Z.max 1 max_results) - List.length urls)%nat
        with (S (Z.to_nat (Z.max 1 max_results) - (List.length urls + 1)))%nat
        by lia.
      reflexivity.
Qed.

(** X1.  [google_search] returns, for a response with status 200, the first
    [max(1, max_results)] texts that the anchors of the page contribute, in
    document order and with repetitions kept; for any other status, and when
    [requests.get] raises, it returns nothing. *)
Theorem google_search_first_targets (get : Request -> GetOutcome)
    (query : string) (proxy : option string) (max_results : Z) :
  google_search get query proxy max_results =
  match get (google_search_request query proxy max_results) with
  | Raises _ => []
  | Returns response =>
      if (status_code response =? 200)%Z
      then firstn (cap max_results) (wrapped_targets (anchors response))
      else []
  end.
Proof.
  unfold google_search.
  destruct (get _) as [ exc | response ]; [ reflexivity | ].
  destruct (status_code response =? 200)%Z; [ | reflexivity ].
  rewrite collect_urls_firstn by (unfold cap; cbn [List.length]; lia).
  cbn [app List.length]. rewrite Nat.sub_0_r. reflexivity.
Qed.

End ResultLinks.

(** ** Every run, whatever happens around it *)

Section EveryRun.
Import DorkSearchThread Runs.

Lemma existsb_terminal_app (tr1 tr2 : list Event) :
  existsb is_terminal (tr1 ++ tr2) =
  existsb is_terminal tr1 || existsb is_terminal tr2.
Proof. apply existsb_app. Qed.

(** Inside the loop neither [finished] nor [error] is emitted, and the only
    exception that can leave it is the one of [time.sleep]. *)
Lemma for_loop_inside (w : World) (self : t) (total : nat) :
  forall (todo : list string) (idx proxy_index : nat),
    existsb is_terminal (fst (for_loop w self total idx proxy_index todo))
      = false /\
    (forall exc, snd (for_loop w self total idx proxy_index todo) = Some exc ->
                 exc = "sleep length must be non-negative").
Proof.
  induction todo as [ | dork todo IH ]; intros idx proxy_index.
  - split; [ reflexivity | discriminate ].
  - rewrite for_loop_cons.
    destruct (stop_called w idx || negb (running self));
      [ split; [ reflexivity | discriminate ] | ].
    cbv zeta. unfold sleep.
    destruct (Qle_bool 0 (delay_at w self idx)); cbn [fst snd].
    + destruct (IH (S idx)
                  (snd (select_proxy (proxies self) proxy_index))) as [H1 H2].
      split; [ | exact H2 ].
      rewrite existsb_terminal_app. cbn. exact H1.
    + split; [ reflexivity | ]. intros exc H. injection H as <-. reflexivity.
Qed.



Lemma for_loop_paired (w : World) (self : t) (total : nat) :
  forall (todo : list string) (idx proxy_index : nat),
    let events := fst (for_loop w self total idx proxy_index todo) in
    List.length (requests events) = List.length (results events) /\
    map result_dork (results events)
      = firstn (List.length (results events)) todo /\
    Forall count_is_length (results events).
Proof.
  induction todo as [ | dork todo IH ]; intros idx proxy_index.
  - cbn. repeat split. constructor.
  - cbv zeta. rewrite for_loop_cons.
    destruct (stop_called w idx || negb (running self)).
    { cbn. repeat split. constructor. }
    cbv zeta.
    destruct (sleep (delay_at w self idx)); cbn [fst].
    + cbn. repeat split. constructor; [ reflexivity | constructor ].
    + destruct (IH (S idx)
                  (snd (select_proxy (proxies self) proxy_index)))
        as (H1 & H2 & H3).
      cbn [app requests results List.length map firstn result_dork fst].
      repeat split.
      * rewrite H1. reflexivity.
      * f_equal. exact H2.
      * constructor; [ reflexivity | exact H3 ].
Qed.

Lemma run_results (w : World) (self : t) :
  results (run w self) =
  results (fst (for_loop w self (List.length (dorks self)) 0 0 (dorks self))).
Proof.
  unfold run.
  destruct (for_loop w self (List.length (dorks self)) 0 0 (dorks self))
    as [events [ exc | ]]; rewrite results_app; apply app_nil_r.
Qed.

(** X3.  In every run, cancelled or failing or neither, each request sent is
    answered by a [result] signal: there are as many signals as requests,
    the signals are those of an initial part of the dork list, in its order,
    and each carries the number of its URLs. *)
Theorem run_answers_every_request (w : World) (self : t) :
  List.length (results (run w self)) = List.length (requests (run w self)) /\
  map result_dork (results (run w self))
    = firstn (List.length (results (run w self))) (dorks self) /\
  Forall count_is_length (results (run w self)).
Proof.
  rewrite run_results, run_requests.
  destruct (for_loop_paired w self (List.length (dorks self)) (dorks self) 0 0)
    as (H1 & H2 & H3).
  split; [ symmetry; exact H1 | split; assumption ].
Qed.

Lemma for_loop_truncated (w : World) (self : t) (total : nat) :
  forall (todo : list string) (idx proxy_index : nat),
    exists k,
      results (fst (for_loop w self total idx proxy_index todo)) =
      firstn k (results (fst (for_loop (without_stop w) self total idx
                                proxy_index todo))) /\
      requests (fst (for_loop w self total idx proxy_index todo)) =
      firstn k (requests (fst (for_loop (without_stop w) self total idx
                                 proxy_index todo))).
Proof.
  induction todo as [ | dork todo IH ]; intros idx proxy_index.
  - exists 0%nat. split; reflexivity.
  - rewrite !for_loop_cons. cbn [without_stop stop_called orb].
    destruct (stop_called w idx); cbn [orb].
    { exists 0%nat. split; reflexivity. }
    destruct (running self); cbn [negb].
    2:{ exists 0%nat. split; reflexivity. }
    cbv zeta.
    change (delay_at (without_stop w) self idx) with (delay_at w self idx).
    change (requests_get (without_stop w) idx) with (requests_get w idx).
    destruct (sleep (delay_at w self idx)); cbn [fst].
    + exists 1%nat. split; reflexivity.
    + destruct (IH (S idx)
                  (snd (select_proxy (proxies self) proxy_index)))
        as (k & H1 & H2).
      exists (S k).
      cbn [app requests results firstn]. rewrite H1, H2. split; reflexivity.
Qed.

(** X4.  Calling [stop] only cuts a run short: the [result] signals and the
    requests of a run are an initial part of those of the run that the same
    thread makes in the same surroundings when [stop] is never called. *)
Theorem stop_only_truncates (w : World) (self : t) :
  exists k,
    results (run w self) = firstn k (results (run (without_stop w) self)) /\
    requests (run w self) = firstn k (requests (run (without_stop w) self)).
Proof.
  rewrite !run_results, !run_requests.
  apply for_loop_truncated.
Qed.

Lemma sleep_raises (secs : Q) :
  (secs < 0)%Q -> sleep secs = Some "sleep length must be non-negative".
Proof.
  intros H. unfold sleep. destruct (Qle_bool 0 secs) eqn:E; [ | reflexivity ].
  apply Qle_bool_iff in E. apply Qle_not_lt in E. contradiction.
Qed.

Lemma uniform_negative (a b : Z) (bits : N) :
  (a < 0)%Z -> (b < 0)%Z -> (uniform a b bits < 0)%Q.
Proof.
  intros Ha Hb.
  destruct (Z.le_ge_cases a b) as [Hab | Hba].
  - apply Qle_lt_trans with (inject_Z b).
    + apply uniform_between; assumption.
    + change 0%Q with (inject_Z 0). rewrite <- Zlt_Qlt. assumption.
  - apply Qle_lt_trans with (inject_Z a).
    + apply uniform_between_swapped; assumption.
    + change 0%Q with (inject_Z 0). rewrite <- Zlt_Qlt. assumption.
Qed.

(** X5.  With both delay bounds negative the first pause fails: a run that
    is not cancelled searches its first dork, emits the result of that
    search, and then ends with [error]; it searches no other dork and never
    emits [finished]. *)
Theorem negative_delays_end_the_run (w : World) (self : t) (dork : string)
    (rest : list string) :
  uncancelled w self ->
  dorks self = dork :: rest ->
  (min_delay self < 0)%Z ->
  (max_delay self < 0)%Z ->
  run w self =
  [ Progress ("Searching: " ++ dork) 1 (S (List.length rest));
    Get (request_at self 0 dork);
    Result dork (urls_at w self 0 dork) (List.length (urls_at w self 0 dork));
    Error "Search error: sleep length must be non-negative" ].
Proof.
  intros [Hrun Hnever] Hdorks Hmin Hmax. unfold run. rewrite Hdorks.
  rewrite for_loop_cons, Hnever, Hrun. cbn [orb negb]. cbv zeta.
  rewrite sleep_raises by (apply uniform_negative; assumption).
  destruct (select_proxy_step self 0 0 (or_intror eq_refl)) as [Hp _].
  rewrite Hp. reflexivity.
Qed.

Lemma negative_delays_end_the_run_witness :
  uncancelled Examples.calm (init ["inurl:admin"; "inurl:login"] "" [] 10 (-2) (-1)) /\
  existsb is_error
    (run Examples.calm (init ["inurl:admin"; "inurl:login"] "" [] 10 (-2) (-1)))
  = true /\
  List.length
    (results
       (run Examples.calm (init ["inurl:admin"; "inurl:login"] "" [] 10 (-2) (-1))))
  = 1%nat.
Proof.
  assert (Hc : uncancelled Examples.calm
                 (init ["inurl:admin"; "inurl:login"] "" [] 10 (-2) (-1))).
  { split; [ reflexivity | intros idx; reflexivity ]. }
  split; [ exact Hc | ].
  rewrite (negative_delays_end_the_run Examples.calm _ "inurl:admin"
             ["inurl:login"] Hc eq_refl ltac:(cbn; lia) ltac:(cbn; lia)).
  split; reflexivity.
Defined.

End EveryRun.

(** ** Strings *)

Section Strings.
Local Open Scope string_scope.

Lemma append_nil_r (s : string) : s ++ "" = s.
Proof. induction s as [ | c s IH ]; [ reflexivity | cbn; rewrite IH; reflexivity ]. Qed.

Lemma append_assoc (a b c : string) : (a ++ b) ++ c = a ++ (b ++ c).
Proof. induction a as [ | x a IH ]; [ reflexivity | cbn; rewrite IH; reflexivity ]. Qed.

Lemma prefix_append (a r : string) : String.prefix a (a ++ r) = true.
Proof.
  induction a as [ | x a IH ]; [ destruct r; reflexivity | ].
  cbn. destruct (ascii_dec x x); [ exact IH | contradiction ].
Qed.

Lemma prefix_split (a s : string) :
  String.prefix a s = true -> exists r, s = a ++ r.
Proof.
  revert a. induction s as [ | c s IH ]; intros a H.
  - destruct a; [ exists ""; reflexivity | discriminate H ].
  - destruct a as [ | x a ]; [ exists (String c s); reflexivity | ].
    cbn in H. destruct (ascii_dec x c) as [ -> | ]; [ | discriminate H ].
    destruct (IH a H) as (r & ->). exists r. reflexivity.
Qed.

(** [sub in s] says that [s] is [sub] with something before and after. *)
Lemma contains_split (sub s : string) :
  Py.contains sub s = true <-> exists pre post, s = pre ++ sub ++ post.
Proof.
  split.
  - induction s as [ | c s IH ]; cbn [Py.contains]; intros H.
    + rewrite orb_false_r in H. apply prefix_split in H.
      destruct H as (r & ->). exists "", r. reflexivity.
    + apply orb_true_iff in H. destruct H as [H | H].
      * apply prefix_split in H. destruct H as (r & ->).
        exists "", r. reflexivity.
      * destruct (IH H) as (pre & post & ->).
        exists (String c pre), post. reflexivity.
  - intros (pre & post & ->).
    induction pre as [ | c pre IH ].
    + cbn [append]. destruct (sub ++ post) eqn:E; cbn [Py.contains];
        rewrite <- E, prefix_append; reflexivity.
    + cbn [append Py.contains]. rewrite IH. apply orb_true_r.
Qed.

Lemma lower_append (a b : string) :
  Py.lower (a ++ b) = Py.lower a ++ Py.lower b.
Proof. induction a as [ | x a IH ]; [ reflexivity | cbn; rewrite IH; reflexivity ]. Qed.

(** *** [strip] *)

Lemma rstrip_rstrip (s : string) : Py.rstrip (Py.rstrip s) = Py.rstrip s.
Proof.
  induction s as [ | c s IH ]; [ reflexivity | ].
  cbn [Py.rstrip].
  destruct (Py.isspace c && (Py.rstrip s =? "")) eqn:E; [ reflexivity | ].
  cbn [Py.rstrip]. rewrite IH, E. reflexivity.
Qed.

Lemma lstrip_starts_clean (s : string) : starts_clean (Py.lstrip s).
Proof.
  induction s as [ | c s IH ]; [ exact I | ].
  cbn [Py.lstrip]. destruct (Py.isspace c) eqn:E; [ exact IH | exact E ].
Qed.

Lemma rstrip_starts_clean (s : string) :
  starts_clean s -> starts_clean (Py.rstrip s).
Proof.
  destruct s as [ | c s ]; [ trivial | ].
  cbn [starts_clean Py.rstrip]. intros H. rewrite H. exact H.
Qed.

Lemma lstrip_clean (s : string) : starts_clean s -> Py.lstrip s = s.
Proof.
  destruct s as [ | c s ]; [ reflexivity | ].
  cbn [starts_clean Py.lstrip]. intros ->. reflexivity.
Qed.

Lemma strip_strip (s : string) : Py.strip (Py.strip s) = Py.strip s.
Proof.
  unfold Py.strip.
  rewrite (lstrip_clean (Py.rstrip (Py.lstrip s))).
  - apply rstrip_rstrip.
  - apply rstrip_starts_clean, lstrip_starts_clean.
Qed.

End Strings.

(** ** Classifying URLs *)

Section Classification.
Import ParameterExtractor.
Local Open Scope string_scope.

(** X6.  A URL that contains a database-like URL is database-like: the
    indicators are looked for anywhere in the text, so whatever stands before
    or after a flagged text leaves it flagged. *)
Theorem is_database_url_embedded (before url after : string) :
  is_database_url url = true ->
  is_database_url (before ++ url ++ after) = true.
Proof.
  unfold is_database_url. rewrite !existsb_exists.
  intros (indicator & Hin & Hsub). exists indicator. split; [ exact Hin | ].
  apply contains_split in Hsub. destruct Hsub as (pre & post & E).
  apply contains_split. rewrite !lower_append, E.
  exists (Py.lower before ++ pre), (post ++ Py.lower after).
  rewrite !append_assoc. reflexivity.
Qed.

Lemma is_database_url_embedded_witness :
  is_database_url "view.php" = true /\
  is_database_url ("http://x.com/" ++ "view.php" ++ "#top") = true.
Proof.
  split; [ reflexivity | ].
  apply is_database_url_embedded. reflexivity.
Defined.

Lemma match_here_prefix (lit s : string) :
  SqlPatterns.match_here lit s = true -> String.prefix lit s = true.
Proof.
  revert s. induction lit as [ | a lit IH ]; intros s H.
  - destruct s; reflexivity.
  - destruct s as [ | c s ]; [ discriminate H | ].
    cbn in H. apply andb_true_iff in H. destruct H as [Hac H].
    apply Ascii.eqb_eq in Hac. subst c. cbn.
    destruct (ascii_dec a a); [ apply IH; exact H | contradiction ].
Qed.

Lemma re_search_contains (lit s : string) :
  SqlPatterns.re_search lit s = true -> Py.contains lit s = true.
Proof.
  induction s as [ | c s IH ]; cbn [SqlPatterns.re_search Py.contains];
    intros H; apply orb_true_iff in H; apply orb_true_iff.
  - destruct H as [H | H]; [ | discriminate H ].
    left. apply match_here_prefix. exact H.
  - destruct H as [H | H]; [ left; apply match_here_prefix; exact H | ].
    right. apply IH. exact H.
Qed.

(** X7.  Every pattern that [extract_sql_patterns] reports is a text of its
    catalogue, and a URL for which it reports a pattern is a database-like
    URL for [is_database_url]: the literal of each pattern is one of the
    indicators. *)
Theorem sql_patterns_are_database_urls (url : string) :
  incl (SqlPatterns.extract_sql_patterns url)
       (map SqlPatterns.text SqlPatterns.patterns) /\
  (SqlPatterns.extract_sql_patterns url <> [] -> is_database_url url = true).
Proof.
  unfold SqlPatterns.extract_sql_patterns. split.
  - intros t Ht. apply in_map_iff in Ht. destruct Ht as (p & <- & Hp).
    apply filter_In in Hp. apply in_map. exact (proj1 Hp).
  - intros Hne.
    destruct (filter _ SqlPatterns.patterns) as [ | p rest ] eqn:E;
      [ contradiction | ].
    assert (Hp : In p (filter
                 (fun pattern =>
                    SqlPatterns.re_search (SqlPatterns.literal pattern) url)
                 SqlPatterns.patterns)) by (rewrite E; left; reflexivity).
    apply filter_In in Hp. destruct Hp as [Hcat Hmatch].
    apply re_search_contains, contains_split in Hmatch.
    destruct Hmatch as (pre & post & ->).
    unfold is_database_url. rewrite !lower_append. apply existsb_exists.
    exists (SqlPatterns.literal p). split.
    + cbn in Hcat.
      repeat (destruct Hcat as [ <- | Hcat ]; [ cbn; tauto | ]).
      destruct Hcat.
    + apply contains_split.
      exists (Py.lower pre), (Py.lower post).
      cbn in Hcat.
      repeat (destruct Hcat as [ <- | Hcat ]; [ reflexivity | ]).
      destruct Hcat.
Qed.

Lemma sql_patterns_are_database_urls_witness :
  SqlPatterns.extract_sql_patterns "http://x.com/a?uid=7" = ["id=\d+"] /\
  is_database_url "http://x.com/a?uid=7" = true.
Proof.
  assert (E : SqlPatterns.extract_sql_patterns "http://x.com/a?uid=7"
              = ["id=\d+"]) by (vm_compute; reflexivity).
  split; [ exact E | ].
  apply (proj2 (sql_patterns_are_database_urls "http://x.com/a?uid=7")).
  rewrite E. discriminate.
Defined.

(** *** The parameters of a URL *)

Lemma unquote_nonempty (s : string) : s <> "" -> Py.unquote s <> "".
Proof.
  destruct s as [ | c s ]; [ contradiction | ]. intros _.
  cbn [Py.unquote]. destruct (Ascii.eqb c "%"); [ | discriminate ].
  destruct s as [ | h [ | l rest ] ]; try discriminate.
  destruct (Py.hex_digit h); [ | discriminate ].
  destruct (Py.hex_digit l); discriminate.
Qed.

Lemma replace_char_nonempty (a b : ascii) (s : string) :
  s <> "" -> Py.replace_char a b s <> "".
Proof. destruct s; [ contradiction | discriminate ]. Qed.

Lemma parse_qsl_values (qs : string) :
  Forall (fun nv => snd nv <> "") (Urllib.parse_qsl qs).
Proof.
  unfold Urllib.parse_qsl. apply Forall_flat_map, Forall_forall.
  intros field _. unfold Urllib.parse_field.
  destruct (field =? ""); [ constructor | ].
  destruct (Py.split1 "=" field) as [ | name [ | value [ | x rest ] ] ];
    try constructor.
  - destruct (String.eqb_spec value ""); [ constructor | ].
    constructor; [ | constructor ]. cbn [snd].
    apply unquote_nonempty, replace_char_nonempty. assumption.
Qed.

Lemma keys_add_value_step (d : list (string * list string)) (name value : string) :
  map fst (Urllib.add_value d name value) =
  if existsb (String.eqb name) (map fst d) then map fst d
  else (map fst d ++ [name])%list.
Proof.
  induction d as [ | [k vs] d IH ]; [ reflexivity | ].
  cbn [Urllib.add_value map fst existsb].
  rewrite (String.eqb_sym name k).
  destruct (String.eqb k name); cbn [orb map fst]; [ reflexivity | ].
  rewrite IH. destruct (existsb _ _); reflexivity.
Qed.

Lemma keys_fold_add_order (fields : list (string * string)) :
  forall d : list (string * list string),
    map fst (fold_left (fun d nv => Urllib.add_value d (fst nv) (snd nv))
               fields d) =
    fold_left (fun keys k => if existsb (String.eqb k) keys then keys
                             else (keys ++ [k])%list)
      (map fst fields) (map fst d).
Proof.
  induction fields as [ | [n v] fields IH ]; intros d; [ reflexivity | ].
  cbn [fold_left map fst snd]. rewrite IH, keys_add_value_step. reflexivity.
Qed.

(** X8.  The parameters of a URL that parses never hold an empty value, and
    never a list of fewer than two values: a name has either one non-empty
    string or a list of at least two of them.  The names stand in the order
    in which the query string first mentions them. *)
Theorem parameters_shape (url : string) (info : UrlInfo) :
  extract_parameters url = Parsed info ->
  (forall name v, lookup (parameters info) name = Some (Scalar v) -> v <> "") /\
  (forall name vs, lookup (parameters info) name = Some (Values vs) ->
     (2 <= List.length vs)%nat /\ Forall (fun v => v <> "") vs) /\
  (exists parsed,
     Urllib.urlparse url = inr parsed /\
     map fst (parameters info) =
     PagodoGUI.dict_fromkeys
       (map fst (Urllib.parse_qsl (Urllib.query parsed)))).
Proof.
  unfold extract_parameters.
  destruct (Urllib.urlparse url) as [ exc | parsed ]; [ discriminate | ].
  intros H. injection H as <-. cbn [parameters].
  assert (Hvalues : forall name,
            Forall (fun v => v <> "")
              (values_of name (Urllib.parse_qsl (Urllib.query parsed)))).
  { intros name. unfold values_of. apply Forall_map.
    apply Forall_forall. intros nv Hnv. apply filter_In in Hnv.
    exact (proj1 (Forall_forall _ _)
             (parse_qsl_values (Urllib.query parsed)) nv (proj1 Hnv)). }
  assert (Hlookup : forall name,
            lookup (flat_params (Urllib.parse_qs (Urllib.query parsed))) name =
            match values_of name (Urllib.parse_qsl (Urllib.query parsed)) with
            | [] => None
            | vs => Some (flatten vs)
            end).
  { intros name. rewrite lookup_flat_params. unfold Urllib.parse_qs.
    rewrite lookup_fold_add. cbn [lookup].
    destruct (values_of name _); reflexivity. }
  split; [ | split ].
  - intros name v. rewrite Hlookup. specialize (Hvalues name).
    destruct (values_of name _) as [ | v1 [ | v2 vs ] ]; try discriminate.
    cbn [flatten]. intros H. injection H as <-.
    inversion Hvalues; assumption.
  - intros name vs. rewrite Hlookup. specialize (Hvalues name).
    destruct (values_of name _) as [ | v1 [ | v2 rest ] ]; try discriminate.
    cbn [flatten]. intros H. injection H as <-.
    split; [ cbn; lia | exact Hvalues ].
  - exists parsed. split; [ reflexivity | ].
    rewrite keys_flat_params. unfold Urllib.parse_qs.
    rewrite keys_fold_add_order. reflexivity.
Qed.

Lemma parameters_shape_witness :
  exists info,
    extract_parameters "http://x.com/a?b=1&a=&b=2&c=%41" = Parsed info /\
    map fst (parameters info) = ["b"; "c"] /\
    lookup (parameters info) "c" = Some (Scalar "A").
Proof.
  assert (E : extract_parameters "http://x.com/a?b=1&a=&b=2&c=%41" =
              Parsed {| url := "http://x.com/a?b=1&a=&b=2&c=%41";
                        scheme := "http"; domain := "x.com"; path := "/a";
                        parameters := [("b", Values ["1"; "2"]);
                                       ("c", Scalar "A")];
                        fragment := "" |}) by (vm_compute; reflexivity).
  eexists. split; [ exact E | ].
  destruct (parameters_shape _ _ E) as (_ & _ & parsed & Hparsed & Hkeys).
  vm_compute in Hparsed. injection Hparsed as <-.
  split; [ rewrite Hkeys; vm_compute; reflexivity | reflexivity ].
Defined.

End Classification.

(** ** The GHDB scraper *)

Section Scraper.
Import DorkScraperThread.

Variable get : string -> Outcome.

Lemma dict_get_set_same (d : list (Z * CategoryEntry)) (k : Z) (e : CategoryEntry) :
  dict_get (dict_set d k e) k = Some e.
Proof.
  induction d as [ | [k' v] d IH ]; cbn [dict_set dict_get].
  - rewrite Z.eqb_refl. reflexivity.
  - destruct (Z.eqb_spec k' k) as [ -> | Hneq ]; cbn [dict_get].
    + rewrite Z.eqb_refl. reflexivity.
    + destruct (Z.eqb_spec k' k); [ contradiction | exact IH ].
Qed.

Lemma dict_get_set_other (d : list (Z * CategoryEntry)) (k k0 : Z)
    (e : CategoryEntry) :
  k <> k0 -> dict_get (dict_set d k e) k0 = dict_get d k0.
Proof.
  intros Hneq. induction d as [ | [k' v] d IH ]; cbn [dict_set dict_get].
  - destruct (Z.eqb_spec k k0); [ contradiction | reflexivity ].
  - destruct (Z.eqb_spec k' k) as [ -> | Hk ]; cbn [dict_get].
    + destruct (Z.eqb_spec k k0); [ contradiction | reflexivity ].
    + destruct (k' =? k0)%Z; [ reflexivity | exact IH ].
Qed.

(** Setting a key that the dictionary does not have appends it. *)
Lemma dict_set_fresh (d : list (Z * CategoryEntry)) (k : Z) (e : CategoryEntry) :
  ~ In k (map fst d) -> dict_set d k e = d ++ [(k, e)].
Proof.
  induction d as [ | [k' v] d IH ]; intros Hfresh; [ reflexivity | ].
  cbn [dict_set app]. cbn [map fst In] in Hfresh.
  destruct (Z.eqb_spec k' k); [ tauto | ].
  rewrite IH by tauto. reflexivity.
Qed.

Lemma so_far_step (st : State) (cat_id : Z) (cat_name : string) :
  so_far (scrape_category get st (cat_id, cat_name)) =
  match entry_for get cat_id cat_name with
  | Some e => dict_set (so_far st) cat_id e
  | None => so_far st
  end.
Proof.
  unfold scrape_category, entry_for.
  destruct (get (category_url cat_id)) as [ exc | page ]; [ reflexivity | ].
  destruct (status_code page =? 200)%Z; reflexivity.
Qed.

Lemma scrape_loop_entries (cats : list (Z * string)) :
  NoDup (map fst cats) ->
  forall (st : State) (k : Z),
    dict_get (so_far (scrape_loop get cats st)) k =
    match name_of cats k with
    | Some name =>
        match entry_for get k name with
        | Some e => Some e
        | None => dict_get (so_far st) k
        end
    | None => dict_get (so_far st) k
    end.
Proof.
  unfold scrape_loop.
  induction cats as [ | [cat_id cat_name] cats IH ]; intros Hnodup st k;
    [ reflexivity | ].
  cbn [map fst] in Hnodup. inversion Hnodup as [ | x l Hfresh Hrest ]; subst.
  cbn [fold_left name_of]. rewrite (IH Hrest), so_far_step.
  destruct (Z.eqb_spec cat_id k) as [ -> | Hneq ].
  - assert (Hnone : name_of cats k = None).
    { clear - Hfresh. induction cats as [ | [k' n] cats IH ]; [ reflexivity | ].
      cbn [name_of]. cbn [map fst In] in Hfresh.
      destruct (Z.eqb_spec k' k); [ tauto | apply IH; tauto ]. }
    rewrite Hnone.
    destruct (entry_for get k cat_name);
      [ apply dict_get_set_same | reflexivity ].
  - destruct (entry_for get cat_id cat_name) as [ e | ];
      [ rewrite dict_get_set_other by exact Hneq | ]; reflexivity.
Qed.

Lemma categories_NoDup : NoDup (map fst categories).
Proof.
  cbn. repeat (constructor; [ cbn; intros H;
    repeat (destruct H as [ H | H ]; [ discriminate H | ]); exact H | ]).
  constructor.
Qed.

Lemma name_of_In (cats : list (Z * string)) (k : Z) (name : string) :
  NoDup (map fst cats) -> In (k, name) cats -> name_of cats k = Some name.
Proof.
  induction cats as [ | [k' n] cats IH ]; intros Hnodup Hin; [ destruct Hin | ].
  cbn [map fst] in Hnodup. inversion Hnodup as [ | x l Hfresh Hrest ]; subst.
  cbn [name_of]. destruct Hin as [ E | Hin ].
  - injection E as -> ->. rewrite Z.eqb_refl. reflexivity.
  - destruct (Z.eqb_spec k' k) as [ -> | ]; [ | apply IH; assumption ].
    exfalso. apply Hfresh. apply (in_map fst) in Hin. exact Hin.
Qed.

(** X9.  The dictionary of [scrape_ghdb] has an entry for a category exactly
    when the page of that category came with status 200, and the entry then
    holds the name of the category, the stripped non-empty texts of its
    cells in document order, and their number.  A category whose request
    raises or comes with another status has no entry and takes nothing from
    the other categories. *)
Theorem scrape_ghdb_entries (cat_id : Z) (cat_name : string) :
  In (cat_id, cat_name) categories ->
  dict_get (category_dict (fst (scrape_ghdb get))) cat_id =
  match get (category_url cat_id) with
  | Raises _ => None
  | Returns page =>
      if (status_code page =? 200)%Z
      then Some {| category_name := cat_name;
                   dorks := category_dorks (dork_cells page);
                   count := List.length (category_dorks (dork_cells page)) |}
      else None
  end.
Proof.
  intros Hin. unfold scrape_ghdb. cbn [fst category_dict].
  rewrite (scrape_loop_entries categories categories_NoDup).
  rewrite (name_of_In categories cat_id cat_name categories_NoDup Hin).
  cbn [so_far dict_get]. unfold entry_for.
  destruct (get (category_url cat_id)) as [ exc | page ]; [ reflexivity | ].
  destruct (status_code page =? 200)%Z; reflexivity.
Qed.

Lemma category_dorks_stripped (cells : list string) :
  Forall stripped (category_dorks cells).
Proof.
  unfold category_dorks. apply Forall_map, Forall_forall.
  intros text Htext. apply filter_In in Htext. destruct Htext as [_ Hne].
  split; [ | apply strip_strip ].
  destruct (String.eqb_spec (Py.strip text) ""); [ discriminate Hne | assumption ].
Qed.

Lemma keys_step (st : State) (cat_id : Z) (cat_name : string) :
  forall k, In k (map fst (so_far (scrape_category get st (cat_id, cat_name)))) ->
            k = cat_id \/ In k (map fst (so_far st)).
Proof.
  intros k. rewrite so_far_step.
  destruct (entry_for get cat_id cat_name) as [ e | ]; [ | tauto ].
  induction (so_far st) as [ | [k' v] d IH ]; cbn [dict_set map fst In].
  - intros [ <- | [] ]. left; reflexivity.
  - destruct (Z.eqb_spec k' cat_id) as [ -> | ]; cbn [map fst In]; tauto.
Qed.

Lemma consistent_step (st : State) (cat_id : Z) (cat_name : string) :
  ~ In cat_id (map fst (so_far st)) ->
  consistent st -> consistent (scrape_category get st (cat_id, cat_name)).
Proof.
  intros Hfresh (Hall & Hcount & Hstripped & Hsleeps).
  unfold consistent, scrape_category.
  assert (Hs : forall tr1 tr2, sleeps (tr1 ++ tr2) = sleeps tr1 ++ sleeps tr2).
  { induction tr1 as [ | e tr1 IH ]; intros tr2; [ reflexivity | ].
    destruct e; cbn; rewrite IH; reflexivity. }
  destruct (get (category_url cat_id)) as [ exc | page ];
    cbn [all_dorks so_far events].
  - rewrite !Hs. cbn. rewrite !app_nil_r. tauto.
  - destruct (status_code page =? 200)%Z; cbn [all_dorks so_far events].
    + rewrite dict_set_fresh by exact Hfresh.
      rewrite map_app, concat_app, length_app, !Hs. cbn.
      rewrite !app_nil_r, Nat.add_1_r, <- Hall, Hsleeps.
      repeat split.
      * apply Forall_app. split; [ exact Hcount | ].
        constructor; [ reflexivity | constructor ].
      * apply Forall_app. split; [ exact Hstripped | ].
        apply category_dorks_stripped.
      * symmetry. apply (repeat_cons (List.length (so_far st)) 1%Z).
    + rewrite !Hs. cbn. rewrite !app_nil_r. tauto.
Qed.

Lemma scrape_loop_consistent (cats : list (Z * string)) :
  NoDup (map fst cats) ->
  forall st : State,
    (forall k, In k (map fst (so_far st)) -> ~ In k (map fst cats)) ->
    consistent st -> consistent (scrape_loop get cats st).
Proof.
  unfold scrape_loop.
  induction cats as [ | [cat_id cat_name] cats IH ]; intros Hnodup st Hapart Hst;
    [ exact Hst | ].
  cbn [map fst] in Hnodup. inversion Hnodup as [ | x l Hfresh Hrest ]; subst.
  cbn [fold_left]. apply (IH Hrest).
  - intros k Hk Hin. destruct (keys_step st cat_id cat_name k Hk) as [ -> | Hold ].
    + contradiction.
    + apply (Hapart k Hold). right. exact Hin.
  - apply consistent_step; [ | exact Hst ].
    intros Hin. apply (Hapart cat_id Hin). left. reflexivity.
Qed.

(** X10.  The parts of the dictionary of [scrape_ghdb] agree whatever the
    requests do: [total_dorks] is the number of [extracted_dorks], which are
    the dorks of the entries of [category_dict] put end to end in the order
    of the entries; each entry counts its own dorks; every dork is non-empty
    and has no white space at its ends. *)
Theorem scrape_ghdb_consistent :
  let d := fst (scrape_ghdb get) in
  total_dorks d = List.length (extracted_dorks d) /\
  extracted_dorks d = List.concat (map (fun e => dorks (snd e)) (category_dict d)) /\
  Forall (fun e => count (snd e) = List.length (dorks (snd e))) (category_dict d) /\
  Forall stripped (extracted_dorks d).
Proof.
  cbv zeta. unfold scrape_ghdb. cbn [fst total_dorks extracted_dorks category_dict].
  destruct (scrape_loop_consistent categories categories_NoDup
              {| all_dorks := []; so_far := []; events := [] |})
    as (H1 & H2 & H3 & _).
  - intros k [].
  - repeat split; constructor.
  - repeat split; assumption.
Qed.

Lemma gets_app (tr1 tr2 : list Event) : gets (tr1 ++ tr2) = gets tr1 ++ gets tr2.
Proof.
  induction tr1 as [ | e tr1 IH ]; [ reflexivity | ].
  destruct e; cbn; rewrite IH; reflexivity.
Qed.

Lemma scrape_loop_gets (cats : list (Z * string)) :
  forall st : State,
    gets (events (scrape_loop get cats st)) =
    gets (events st) ++ map (fun cat => category_url (fst cat)) cats.
Proof.
  unfold scrape_loop.
  induction cats as [ | [cat_id cat_name] cats IH ]; intros st.
  - cbn. symmetry. apply app_nil_r.
  - cbn [fold_left map fst]. rewrite IH. unfold scrape_category.
    destruct (get (category_url cat_id)) as [ exc | page ];
      [ | destruct (status_code page =? 200)%Z ];
      cbn [events]; rewrite ?gets_app; cbn; rewrite ?app_nil_r, <- ?app_assoc;
      reflexivity.
Qed.

Lemma sleeps_app_scraper (tr1 tr2 : list Event) :
  sleeps (tr1 ++ tr2) = sleeps tr1 ++ sleeps tr2.
Proof.
  induction tr1 as [ | e tr1 IH ]; [ reflexivity | ].
  destruct e; cbn; rewrite IH; reflexivity.
Qed.

Lemma run_shape :
  run get =
  Progress "Fetching latest dorks from GHDB..."
    :: snd (scrape_ghdb get) ++ [Finished (fst (scrape_ghdb get))].
Proof. unfold run. destruct (scrape_ghdb get) as [d done]. reflexivity. Qed.

Lemma scrape_ghdb_events :
  gets (snd (scrape_ghdb get)) = map (fun cat => category_url (fst cat)) categories /\
  sleeps (snd (scrape_ghdb get)) =
    repeat 1%Z (List.length (category_dict (fst (scrape_ghdb get)))).
Proof.
  unfold scrape_ghdb. cbv beta zeta. cbn [fst snd category_dict].
  split.
  - rewrite scrape_loop_gets. reflexivity.
  - destruct (scrape_loop_consistent categories categories_NoDup
                {| all_dorks := []; so_far := []; events := [] |})
      as (_ & _ & _ & H4).
    + intros k [].
    + repeat split; constructor.
    + exact H4.
Qed.

Lemma scrape_loop_no_error (cats : list (Z * string)) :
  forall st : State,
    existsb is_error (events st) = false ->
    existsb is_error (events (scrape_loop get cats st)) = false.
Proof.
  unfold scrape_loop.
  induction cats as [ | [cat_id cat_name] cats IH ]; intros st Hst;
    [ exact Hst | ].
  cbn [fold_left]. apply IH. unfold scrape_category.
  destruct (get (category_url cat_id)) as [ exc | page ];
    [ | destruct (status_code page =? 200)%Z ];
    cbn [events]; rewrite ?existsb_app, Hst; reflexivity.
Qed.

Lemma scrape_ghdb_no_error :
  existsb is_error (snd (scrape_ghdb get)) = false.
Proof.
  unfold scrape_ghdb. cbn [snd]. apply scrape_loop_no_error. reflexivity.
Qed.

(** X11.  Whatever the requests do, the scraper thread asks for each of the
    fourteen categories once, in the order of the table (a failure does not
    stop it), pauses one second after each category that gave an entry and
    only then, never emits [error], and ends with [finished] carrying the
    dictionary. *)
Theorem scraper_run_requests :
  gets (run get) = map (fun cat => category_url (fst cat)) categories /\
  sleeps (run get) =
    repeat 1%Z (List.length (category_dict (fst (scrape_ghdb get)))) /\
  existsb is_error (run get) = false /\
  exists done, run get = Progress "Fetching latest dorks from GHDB..."
                           :: done ++ [Finished (fst (scrape_ghdb get))].
Proof.
  destruct scrape_ghdb_events as [Hgets Hsleeps].
  assert (Hclean := scrape_ghdb_no_error).
  rewrite run_shape. revert Hgets Hsleeps Hclean.
  generalize (scrape_ghdb get). intros [d done]. cbn [fst snd].
  intros Hgets Hsleeps Hclean. cbn [gets sleeps existsb is_error orb].
  rewrite gets_app, sleeps_app_scraper, existsb_app, Hgets, Hsleeps, Hclean.
  cbn [gets sleeps existsb is_error orb]. rewrite !app_nil_r.
  split; [ reflexivity | split; [ reflexivity | split; [ reflexivity | ] ] ].
  exists done. reflexivity.
Qed.

End Scraper.

(** ** Saving and loading dorks *)

Section Files.
Import DorkFiles.
Local Open Scope string_scope.

Lemma one_line_append (a b : string) :
  one_line (a ++ b) <-> one_line a /\ one_line b.
Proof.
  unfold one_line. induction a as [ | c a IH ]; cbn [append Urllib.all_chars].
  - tauto.
  - rewrite !andb_true_iff, IH. tauto.
Qed.

(** A text without line end is read into the current line. *)
Lemma lines_from_one_line (d : string) :
  one_line d ->
  forall cur rest, lines_from cur (d ++ rest) = lines_from (cur ++ d) rest.
Proof.
  unfold one_line. induction d as [ | c d IH ]; intros Hd cur rest.
  - rewrite append_nil_r. reflexivity.
  - cbn [Urllib.all_chars] in Hd. apply andb_true_iff in Hd.
    destruct Hd as [Hc Hd]. apply negb_true_iff in Hc.
    cbn [append lines_from]. rewrite Hc, (IH Hd).
    rewrite append_assoc. reflexivity.
Qed.

Lemma lines_of_join (d : string) (ds : list string) :
  Forall one_line (d :: ds) ->
  lines_from "" (join PagodoGUI.newline (d :: ds)) = d :: ds.
Proof.
  revert d. induction ds as [ | d2 ds IH ]; intros d Hall;
    inversion Hall as [ | x l Hd Hrest ]; subst.
  - cbn [join]. rewrite <- (append_nil_r d) at 1.
    rewrite (lines_from_one_line d Hd). reflexivity.
  - change (join PagodoGUI.newline (d :: d2 :: ds))
      with (d ++ PagodoGUI.newline ++ join PagodoGUI.newline (d2 :: ds)).
    rewrite (lines_from_one_line d Hd). cbn [append].
    unfold PagodoGUI.newline at 1. cbn [append lines_from].
    change (is_newline (ascii_of_nat 10)) with true. cbv iota.
    rewrite (IH d2 Hrest). reflexivity.
Qed.

Lemma read_storable (ds : list string) :
  Forall storable ds ->
  map Py.strip
    (filter (fun line => negb (String.eqb (Py.strip line) "")) ds) = ds.
Proof.
  induction ds as [ | d ds IH ]; intros Hall; [ reflexivity | ].
  inversion Hall as [ | x l [[Hne Hstrip] _] Hrest ]; subst.
  cbn [filter]. rewrite Hstrip.
  destruct (String.eqb_spec d ""); [ contradiction | ].
  cbn [negb map]. rewrite Hstrip, (IH Hrest). reflexivity.
Qed.

(** X12.  Saving and loading give back the dorks: when the window holds at
    least one dork and each of them is an ASCII text that is non-empty, free
    of white space at its ends and free of line ends, [save_dorks] writes a
    text from which [load_dorks] reads exactly these dorks, in their
    order. *)
Theorem save_then_load (self other : PagodoGUI.t) :
  PagodoGUI.dorks self <> [] ->
  Forall ascii_text (PagodoGUI.dorks self) ->
  Forall storable (PagodoGUI.dorks self) ->
  exists content,
    save_dorks self = Some content /\
    PagodoGUI.dorks (load_dorks other (Some content)) = PagodoGUI.dorks self.
Proof.
  intros Hne _ Hall. unfold save_dorks.
  destruct (PagodoGUI.dorks self) as [ | d ds ] eqn:E; [ contradiction | ].
  exists (join PagodoGUI.newline (d :: ds)). split; [ reflexivity | ].
  cbn [load_dorks set_dorks PagodoGUI.dorks]. unfold read_dorks.
  rewrite lines_of_join.
  - apply read_storable. exact Hall.
  - apply Forall_forall. intros x Hx.
    exact (proj2 (proj1 (Forall_forall _ _) Hall x Hx)).
Qed.

Lemma lines_from_are_lines (s : string) :
  forall cur, one_line cur -> Forall one_line (lines_from cur s).
Proof.
  induction s as [ | c s IH ]; intros cur Hcur; cbn [lines_from].
  - constructor; [ exact Hcur | constructor ].
  - destruct (is_newline c) eqn:E.
    + constructor; [ exact Hcur | apply IH; reflexivity ].
    + apply IH. apply one_line_append. split; [ exact Hcur | ].
      unfold one_line. cbn. rewrite E. reflexivity.
Qed.

Lemma lstrip_one_line (s : string) : one_line s -> one_line (Py.lstrip s).
Proof.
  unfold one_line. induction s as [ | c s IH ]; intros H; [ exact H | ].
  cbn [Py.lstrip]. destruct (Py.isspace c); [ | exact H ].
  cbn [Urllib.all_chars] in H. apply andb_true_iff in H. apply IH, H.
Qed.

Lemma rstrip_one_line (s : string) : one_line s -> one_line (Py.rstrip s).
Proof.
  unfold one_line. induction s as [ | c s IH ]; intros H; [ exact H | ].
  cbn [Urllib.all_chars] in H. apply andb_true_iff in H. destruct H as [Hc Hs].
  cbn [Py.rstrip]. destruct (Py.isspace c && (Py.rstrip s =? ""));
    [ reflexivity | ].
  cbn [Urllib.all_chars]. rewrite Hc, (IH Hs). reflexivity.
Qed.

(** X13.  Every dork that [load_dorks] reads is non-empty, has no white
    space at its ends and holds no line end, whatever the file holds; so a
    list of dorks that was loaded is written and read back unchanged. *)
Theorem loaded_dorks_are_storable (self : PagodoGUI.t) (content : string) :
  Forall storable (PagodoGUI.dorks (load_dorks self (Some content))) /\
  (PagodoGUI.dorks (load_dorks self (Some content)) <> [] ->
   exists written,
     save_dorks (load_dorks self (Some content)) = Some written /\
     load_dorks self (Some written) = load_dorks self (Some content)).
Proof.
  assert (Hall : Forall storable
                   (PagodoGUI.dorks (load_dorks self (Some content)))).
  { cbn [load_dorks set_dorks PagodoGUI.dorks]. unfold read_dorks.
    apply Forall_map, Forall_forall. intros line Hline.
    apply filter_In in Hline. destruct Hline as [Hin Hne].
    split; [ split | ].
    - destruct (String.eqb_spec (Py.strip line) "");
        [ discriminate Hne | assumption ].
    - apply strip_strip.
    - unfold Py.strip. apply rstrip_one_line, lstrip_one_line.
      exact (proj1 (Forall_forall _ _)
               (lines_from_are_lines content "" eq_refl) line Hin). }
  split; [ exact Hall | ].
  cbn [load_dorks set_dorks PagodoGUI.dorks] in *. intros Hne.
  unfold save_dorks. cbn [PagodoGUI.dorks].
  destruct (read_dorks content) as [ | d ds ] eqn:E; [ contradiction | ].
  exists (join PagodoGUI.newline (d :: ds)). split; [ reflexivity | ].
  f_equal. unfold read_dorks at 1. rewrite lines_of_join.
  - apply read_storable. exact Hall.
  - apply Forall_forall. intros x Hx.
    exact (proj2 (proj1 (Forall_forall _ _) Hall x Hx)).
Qed.

End Files.

(** ** The window and the search it starts *)

Section Window.
Import PagodoGUI.

Lemma read_proxies_stripped (self : t) :
  Forall (fun p => p <> "" /\ Py.strip p = p) (read_proxies self).
Proof.
  unfold read_proxies.
  destruct (enable_proxy_check self); [ | constructor ].
  destruct (String.eqb (Py.strip (proxy_text self)) ""); [ constructor | ].
  apply Forall_map, Forall_forall. intros line Hline.
  apply filter_In in Hline. destruct Hline as [_ Hne].
  split; [ | apply strip_strip ].
  destruct (String.eqb_spec (Py.strip line) ""); [ discriminate Hne | assumption ].
Qed.

(** X14.  The proxies of a search that the window starts are the non-blank
    lines of the proxy text, stripped, and none when the check box is off;
    every request of the search then goes through one of them, and without
    proxies every request goes directly. *)
Theorem started_search_uses_proxies (self self' : t)
    (thread : DorkSearchThread.t) :
  start_search self = Started self' thread ->
  DorkSearchThread.proxies thread = read_proxies self /\
  Forall (fun p => p <> "" /\ Py.strip p = p) (DorkSearchThread.proxies thread) /\
  (enable_proxy_check self = false -> DorkSearchThread.proxies thread = []) /\
  (forall w request,
     In request (DorkSearchThread.requests (DorkSearchThread.run w thread)) ->
     match DorkSearchThread.proxies thread with
     | [] => proxies_dict request = None
     | _ :: _ =>
         exists p, In p (DorkSearchThread.proxies thread) /\
                   proxies_dict request = Rows.through p
     end).
Proof.
  unfold start_search. destruct (dorks self) eqn:E; [ discriminate | ].
  intros H. injection H as _ <-.
  cbn [DorkSearchThread.init DorkSearchThread.proxies].
  assert (Hpool := read_proxies_stripped self).
  split; [ reflexivity | split; [ exact Hpool | split ] ].
  - intros Hoff. unfold read_proxies. rewrite Hoff. reflexivity.
  - intros w request Hin. rewrite run_requests in Hin.
    apply In_nth_error in Hin. destruct Hin as (i & Hi).
    destruct (for_loop_requests w _ _ _ 0 0 i request (or_intror eq_refl) Hi)
      as (dork & _ & ->).
    cbn [DorkSearchThread.request_at DorkSearchThread.google_search_request
           proxies_dict Nat.add].
    unfold DorkSearchThread.proxy_at, Py.item.
    cbn [DorkSearchThread.init DorkSearchThread.proxies].
    destruct (read_proxies self) as [ | p0 pool ] eqn:Ep; [ reflexivity | ].
    destruct (nth_error (p0 :: pool) (i mod List.length (p0 :: pool)))
      as [ p | ] eqn:Enth.
    + exists p. assert (Hp : In p (p0 :: pool)) by (eapply nth_error_In; eauto).
      split; [ exact Hp | ].
      destruct (proj1 (Forall_forall _ _) Hpool p Hp) as [Hne _].
      cbn [DorkSearchThread.make_proxies_dict].
      destruct (String.eqb_spec p ""); [ contradiction | reflexivity ].
    + apply nth_error_None in Enth.
      assert (i mod List.length (p0 :: pool) < List.length (p0 :: pool))%nat
        by (apply Nat.mod_upper_bound; discriminate).
      lia.
Qed.

Lemma add_url_rows (dork : string) (self : t) (url : string) :
  search_results (add_url dork self url) =
  search_results self ++ [Rows.row_of dork url].
Proof.
  unfold add_url.
  destruct (ParameterExtractor.is_database_url url); reflexivity.
Qed.

Lemma on_search_result_rows (dork : string) (urls : list string) :
  forall self,
    search_results (on_search_result self dork urls) =
    search_results self ++ map (Rows.row_of dork) urls.
Proof.
  unfold on_search_result.
  induction urls as [ | url urls IH ]; intros self.
  - cbn. symmetry. apply app_nil_r.
  - cbn [fold_left map]. rewrite IH, add_url_rows, <- app_assoc. reflexivity.
Qed.

(** X15.  After the signals of a trace are handled the results table holds,
    after the rows it had, one row per URL of each [result] signal, in the
    order of the signals and of their URLs, each with the dork of its signal
    and the parameters of its URL; so it has as many new rows as URLs were
    found, repetitions included. *)
Theorem handled_results_fill_rows (tr : list DorkSearchThread.Event) (self : t) :
  search_results (fold_left handle tr self) =
    search_results self ++ flat_map Rows.rows_of (DorkSearchThread.results tr) /\
  List.length (search_results (fold_left handle tr self)) =
    (List.length (search_results self)
     + list_sum (map (fun r => List.length (DorkSearchThread.result_urls r))
                   (DorkSearchThread.results tr)))%nat.
Proof.
  assert (E : forall tr self,
            search_results (fold_left handle tr self) =
            search_results self
              ++ flat_map Rows.rows_of (DorkSearchThread.results tr)).
  { clear. induction tr as [ | e tr IH ]; intros self.
    - cbn. symmetry. apply app_nil_r.
    - cbn [fold_left]. rewrite IH.
      destruct e; cbn [handle DorkSearchThread.results]; try reflexivity.
      rewrite on_search_result_rows, <- app_assoc. reflexivity. }
  split; [ apply E | ].
  rewrite E, length_app. f_equal.
  induction (DorkSearchThread.results tr) as [ | r rs IH ]; [ reflexivity | ].
  cbn [flat_map map list_sum]. rewrite length_app, IH.
  unfold Rows.rows_of at 1. rewrite length_map. reflexivity.
Qed.

Lemma dict_fromkeys_NoDup_same (keys : list string) :
  NoDup keys -> dict_fromkeys keys = keys.
Proof.
  induction keys as [ | x keys IH ] using rev_ind; intros H; [ reflexivity | ].
  rewrite dict_fromkeys_snoc.
  apply NoDup_remove in H. rewrite app_nil_r in H. destruct H as [Hk Hx].
  rewrite (IH Hk).
  destruct (existsb (String.eqb x) keys) eqn:E; [ | reflexivity ].
  apply existsb_eqb_In in E. contradiction.
Qed.

(** X16.  [filter_database_urls] leaves a collection without repetition as
    it is, and filtering twice is filtering once. *)
Theorem filter_database_urls_settles (self : t) :
  (NoDup (database_urls self) -> filter_database_urls self = self) /\
  filter_database_urls (filter_database_urls self) = filter_database_urls self.
Proof.
  assert (Hfix : forall g, NoDup (database_urls g) -> filter_database_urls g = g).
  { intros g Hg. unfold filter_database_urls.
    rewrite (dict_fromkeys_NoDup_same _ Hg), Nat.eqb_refl. reflexivity. }
  split; [ apply Hfix | ].
  apply Hfix. rewrite filter_database_urls_fromkeys. apply dict_fromkeys_NoDup.
Qed.

Lemma for_loop_returns (w : DorkSearchThread.World) (thread : DorkSearchThread.t)
    (total : nat) :
  DorkSearchThread.nonnegative_delays thread ->
  forall (todo : list string) (idx proxy_index : nat),
    snd (DorkSearchThread.for_loop w thread total idx proxy_index todo) = None.
Proof.
  intros [Hmin Hmax].
  induction todo as [ | dork todo IH ]; intros idx proxy_index; [ reflexivity | ].
  rewrite for_loop_cons.
  destruct (DorkSearchThread.stop_called w idx
            || negb (DorkSearchThread.running thread)); [ reflexivity | ].
  cbv zeta. rewrite sleep_returns.
  - cbn [snd]. apply IH.
  - unfold DorkSearchThread.delay_at. apply uniform_nonnegative; assumption.
Qed.

Lemma no_terminal_no_error (tr : list DorkSearchThread.Event) :
  existsb Runs.is_terminal tr = false ->
  existsb DorkSearchThread.is_error tr = false.
Proof.
  induction tr as [ | e tr IH ]; [ reflexivity | ].
  cbn [existsb]. intros H. apply orb_false_iff in H. destruct H as [He Htr].
  rewrite (IH Htr). destruct e; try reflexivity; discriminate He.
Qed.

(** X17.  A search that the window starts cannot fail: the spin boxes keep
    both delays at 1 or more, so that no pause raises.  Whatever the
    requests do and whenever [stop] is called, its run emits no [error] and
    ends with [finished]. *)
Theorem started_search_finishes (self self' : t) (thread : DorkSearchThread.t)
    (w : DorkSearchThread.World) :
  start_search self = Started self' thread ->
  existsb DorkSearchThread.is_error (DorkSearchThread.run w thread) = false /\
  exists before,
    DorkSearchThread.run w thread = before ++ [DorkSearchThread.Finished].
Proof.
  intros Hstart.
  destruct (start_search_ranges self self' thread Hstart)
    as (_ & _ & _ & _ & _ & Hdelays).
  assert (Hnone := for_loop_returns w thread
                     (List.length (DorkSearchThread.dorks thread)) Hdelays
                     (DorkSearchThread.dorks thread) 0 0).
  destruct (for_loop_inside w thread
              (List.length (DorkSearchThread.dorks thread))
              (DorkSearchThread.dorks thread) 0 0) as [Hinside _].
  unfold DorkSearchThread.run.
  destruct (DorkSearchThread.for_loop w thread
              (List.length (DorkSearchThread.dorks thread)) 0 0
              (DorkSearchThread.dorks thread)) as [events exc].
  cbn [fst snd] in Hnone, Hinside. subst exc.
  split; [ | exists events; reflexivity ].
  rewrite existsb_app, (no_terminal_no_error events Hinside). reflexivity.
Qed.

(** X23.  Fetching and then starting: after [on_dorks_fetched] has taken
    the dictionary of the scraper, [start_search] warns exactly when the
    scraper found no dork at all; otherwise the search it starts goes through
    the dorks that were fetched, in their order, each of them non-empty and
    without white space at its ends. *)
Theorem fetched_dorks_are_searched (get : string -> DorkScraperThread.Outcome)
    (self : t) :
  let dorks_dict := fst (DorkScraperThread.scrape_ghdb get) in
  match start_search (DorkFiles.on_dorks_fetched self dorks_dict) with
  | Warning _ _ => DorkScraperThread.total_dorks dorks_dict = 0%nat
  | Started _ thread =>
      DorkScraperThread.total_dorks dorks_dict <> 0%nat /\
      DorkSearchThread.dorks thread
        = DorkScraperThread.extracted_dorks dorks_dict /\
      Forall DorkScraperThread.stripped (DorkSearchThread.dorks thread)
  end.
Proof.
  cbv zeta.
  assert (Hstripped :
    Forall DorkScraperThread.stripped
      (DorkScraperThread.extracted_dorks
         (fst (DorkScraperThread.scrape_ghdb get)))).
  { unfold DorkScraperThread.scrape_ghdb.
    cbn [fst DorkScraperThread.extracted_dorks].
    destruct (scrape_loop_consistent get DorkScraperThread.categories
                categories_NoDup
                {| DorkScraperThread.all_dorks := [];
                   DorkScraperThread.so_far := [];
                   DorkScraperThread.events := [] |})
      as (_ & _ & H & _).
    - intros k [].
    - repeat split; constructor.
    - exact H. }
  assert (Htotal :
    DorkScraperThread.total_dorks (fst (DorkScraperThread.scrape_ghdb get)) =
    List.length (DorkScraperThread.extracted_dorks
                   (fst (DorkScraperThread.scrape_ghdb get)))).
  { unfold DorkScraperThread.scrape_ghdb.
    cbn [fst DorkScraperThread.total_dorks DorkScraperThread.extracted_dorks].
    reflexivity. }
  revert Hstripped Htotal.
  generalize (fst (DorkScraperThread.scrape_ghdb get)). intros d Hstripped Htotal.
  unfold start_search, DorkFiles.on_dorks_fetched.
  cbn [DorkFiles.set_dorks dorks].
  destruct (DorkScraperThread.extracted_dorks d) as [ | dork rest ] eqn:E.
  - exact Htotal.
  - cbn [DorkSearchThread.init DorkSearchThread.dorks set_search_results dorks].
    rewrite Htotal. split; [ discriminate | ]. split; [ reflexivity | exact Hstripped ].
Qed.

End Window.

(** ** The interactive command line *)

Section CommandLine.
Import PagodoCLI.

Lemma rstrip_without_space (s : string) :
  Urllib.all_chars (fun c => negb (Py.isspace c)) s = true -> Py.rstrip s = s.
Proof.
  induction s as [ | c s IH ]; intros H; [ reflexivity | ].
  cbn [Urllib.all_chars] in H. apply andb_true_iff in H. destruct H as [Hc Hs].
  apply negb_true_iff in Hc. cbn [Py.rstrip]. rewrite Hc, (IH Hs). reflexivity.
Qed.

Lemma strip_without_space (s : string) :
  Urllib.all_chars (fun c => negb (Py.isspace c)) s = true -> Py.strip s = s.
Proof.
  intros H. unfold Py.strip.
  replace (Py.lstrip s) with s; [ apply rstrip_without_space, H | ].
  destruct s as [ | c s ]; [ reflexivity | ].
  cbn [Urllib.all_chars] in H. apply andb_true_iff in H. destruct H as [Hc _].
  apply negb_true_iff in Hc. cbn [Py.lstrip]. rewrite Hc. reflexivity.
Qed.

Lemma digits_without_space (d : Decimal.uint) :
  Urllib.all_chars (fun c => negb (Py.isspace c)) (NilEmpty.string_of_uint d)
  = true.
Proof.
  induction d; [ reflexivity | .. ];
    cbn [NilEmpty.string_of_uint Urllib.all_chars]; rewrite IHd; reflexivity.
Qed.

Lemma c_strip_without_space (s : string) :
  Urllib.all_chars (fun c => negb (c_isspace c)) s = true ->
  c_rstrip (c_lstrip s) = s.
Proof.
  intros H. replace (c_lstrip s) with s.
  - induction s as [ | c s IH ]; [ reflexivity | ].
    cbn [Urllib.all_chars] in H. apply andb_true_iff in H.
    destruct H as [Hc Hs]. apply negb_true_iff in Hc.
    cbn [c_rstrip]. rewrite Hc, (IH Hs). reflexivity.
  - destruct s as [ | c s ]; [ reflexivity | ].
    cbn [Urllib.all_chars] in H. apply andb_true_iff in H.
    destruct H as [Hc _]. apply negb_true_iff in Hc.
    cbn [c_lstrip]. rewrite Hc. reflexivity.
Qed.

Lemma digits_without_c_space (d : Decimal.uint) :
  Urllib.all_chars (fun c => negb (c_isspace c)) (NilEmpty.string_of_uint d)
  = true.
Proof.
  induction d; [ reflexivity | .. ];
    cbn [NilEmpty.string_of_uint Urllib.all_chars]; rewrite IHd; reflexivity.
Qed.

(** Reading the digits of a numeral: the accumulator gains a digit. *)
Lemma int_digits_acc (d : Decimal.uint) :
  forall acc : positive,
    int_digits (Z.pos acc) true (NilEmpty.string_of_uint d) =
    Some (Z.pos (Pos.of_uint_acc d acc)).
Proof.
  induction d; intros acc; [ reflexivity | .. ];
    cbn [NilEmpty.string_of_uint int_digits Pos.of_uint_acc];
    match goal with
    | |- context [Urllib.isdigit ?c] => change (Urllib.isdigit c) with true
    end;
    cbv iota; rewrite <- IHd; f_equal;
    match goal with
    | |- context [Z.of_nat ?k] =>
        let v := eval vm_compute in (Z.of_nat k) in change (Z.of_nat k) with v
    end; lia.
Qed.

Lemma int_digits_uint (d : Decimal.uint) :
  int_digits 0 true (NilEmpty.string_of_uint d) = Some (Z.of_N (Pos.of_uint d)).
Proof.
  induction d; [ reflexivity | .. ];
    cbn [NilEmpty.string_of_uint int_digits Pos.of_uint];
    match goal with
    | |- context [Urllib.isdigit ?c] => change (Urllib.isdigit c) with true
    end;
    cbv iota;
    match goal with
    | |- context [int_digits ?a true _] =>
        let v := eval vm_compute in a in change a with v
    end;
    [ exact IHd | apply int_digits_acc .. ].
Qed.

Lemma int_digits_first (d : Decimal.uint) :
  d <> Decimal.Nil ->
  int_digits 0 false (NilEmpty.string_of_uint d) =
  int_digits 0 true (NilEmpty.string_of_uint d).
Proof.
  intros Hd. destruct d; [ contradiction | .. ]; reflexivity.
Qed.

Lemma int_of_uint (d : Decimal.uint) :
  d <> Decimal.Nil ->
  (count_digits (NilEmpty.string_of_uint d) <= int_max_str_digits)%Z ->
  int (NilEmpty.string_of_uint d) = Some (Z.of_N (Pos.of_uint d)).
Proof.
  intros Hd Hsize. unfold int.
  rewrite (c_strip_without_space _ (digits_without_c_space d)).
  rewrite <- int_digits_uint, <- (int_digits_first d Hd).
  apply Z.ltb_ge in Hsize.
  transitivity (int_unsigned (NilEmpty.string_of_uint d));
    [ destruct d; [ contradiction | .. ]; reflexivity | ].
  unfold int_unsigned. rewrite Hsize. reflexivity.
Qed.

(** [str(n)] has neither white space nor anything else to strip. *)
Lemma strip_str_of_int (n : Z) : Py.strip (Py.str_of_int n) = Py.str_of_int n.
Proof.
  unfold Py.str_of_int. apply strip_without_space.
  destruct n as [ | p | p ]; [ reflexivity | | ];
    cbn [Z.to_int NilZero.string_of_int]; unfold NilZero.string_of_uint;
    destruct (Pos.to_uint p) eqn:E;
    try reflexivity; rewrite <- E;
    cbn [Urllib.all_chars]; rewrite digits_without_space; reflexivity.
Qed.

(** [int(str(n)) == n], for [n] that [str] can print. *)
Lemma int_str_of_int (n : Z) :
  (count_digits (Py.str_of_int n) <= int_max_str_digits)%Z ->
  int (Py.str_of_int n) = Some n.
Proof.
  unfold Py.str_of_int. destruct n as [ | p | p ]; [ reflexivity | | ];
    cbn [Z.to_int NilZero.string_of_int];
    assert (Hnil := DecimalPos.Unsigned.to_uint_nonnil p);
    assert (Hval := DecimalPos.Unsigned.of_to p);
    assert (Hz : NilZero.string_of_uint (Pos.to_uint p)
                 = NilEmpty.string_of_uint (Pos.to_uint p))
      by (destruct (Pos.to_uint p); [ contradiction | .. ]; reflexivity);
    rewrite Hz; intros Hsize.
  - rewrite (int_of_uint _ Hnil Hsize), Hval. reflexivity.
  - unfold int. rewrite c_strip_without_space.
    + cbn [count_digits] in Hsize.
      change (Urllib.isdigit "-") with false in Hsize. cbv iota in Hsize.
      rewrite Z.add_0_l in Hsize. apply Z.ltb_ge in Hsize. unfold int_unsigned. rewrite Hsize.
      rewrite (int_digits_first _ Hnil), int_digits_uint, Hval. reflexivity.
    + cbn [Urllib.all_chars]. rewrite digits_without_c_space. reflexivity.
Qed.

(** What [prompt_int] does with one answer. *)
Lemma prompt_int_accepts (answer : string) (rest : list string)
    (minimum maximum : option Z) (value : Z) :
  int (Py.strip answer) = Some value ->
  below minimum value = false ->
  above maximum value = false ->
  prompt_int (answer :: rest) minimum maximum = Some (value, rest).
Proof.
  intros Hint Hlow Hhigh. cbn [prompt_int].
  rewrite Hint, Hlow, Hhigh. reflexivity.
Qed.

Lemma prompt_int_returns (answers : list string) (minimum maximum : option Z)
    (value : Z) (rest : list string) :
  prompt_int answers minimum maximum = Some (value, rest) ->
  exists skipped answer,
    answers = skipped ++ answer :: rest /\
    int (Py.strip answer) = Some value /\
    below minimum value = false /\
    above maximum value = false /\
    Forall (fun a => match int (Py.strip a) with
                     | Some n => below minimum n || above maximum n = true
                     | None => True
                     end) skipped.
Proof.
  induction answers as [ | a answers IH ]; intros H; [ discriminate H | ].
  cbn [prompt_int] in H.
  assert (Hskip :
    match int (Py.strip a) with
    | Some n => below minimum n || above maximum n = true
    | None => True
    end ->
    prompt_int answers minimum maximum = Some (value, rest) ->
    exists skipped answer,
      a :: answers = skipped ++ answer :: rest /\
      int (Py.strip answer) = Some value /\
      below minimum value = false /\
      above maximum value = false /\
      Forall (fun a => match int (Py.strip a) with
                       | Some n => below minimum n || above maximum n = true
                       | None => True
                       end) skipped).
  { intros Ha Hrest. destruct (IH Hrest) as (skipped & answer & -> & Hrem).
    exists (a :: skipped), answer. split; [ reflexivity | ].
    destruct Hrem as (H1 & H2 & H3 & H4).
    repeat split; try assumption. constructor; assumption. }
  destruct (int (Py.strip a)) as [ n | ] eqn:E;
    [ | apply Hskip; [ exact I | exact H ] ].
  destruct (below minimum n) eqn:Elow; [ apply Hskip; [ reflexivity | exact H ] | ].
  destruct (above maximum n) eqn:Ehigh; [ apply Hskip; [ reflexivity | exact H ] | ].
  injection H as <- <-. exists [], a.
  repeat split; try assumption. constructor.
Qed.

(** X18.  For answers typed in ASCII, [prompt_int] returns the number of
    the first answer that is a numeral within the bounds, and leaves the
    answers after it unread: the answers before it are passed over, each
    being no numeral or a number outside the bounds. *)
Theorem prompt_int_first_accepted (answers : list string)
    (minimum maximum : option Z) (value : Z) (rest : list string) :
  Forall ascii_text answers ->
  prompt_int answers minimum maximum = Some (value, rest) <->
  exists skipped answer,
    answers = skipped ++ answer :: rest /\
    int (Py.strip answer) = Some value /\
    below minimum value = false /\
    above maximum value = false /\
    Forall (fun a => match int (Py.strip a) with
                     | Some n => below minimum n || above maximum n = true
                     | None => True
                     end) skipped.
Proof.
  intros _. split; [ apply prompt_int_returns | ].
  intros (skipped & answer & -> & Hint & Hlow & Hhigh & Hskipped).
  induction Hskipped as [ | a skipped Ha _ IH ].
  - apply prompt_int_accepts; assumption.
  - cbn [app prompt_int].
    destruct (int (Py.strip a)) as [ n | ]; [ | exact IH ].
    destruct (below minimum n); [ exact IH | ].
    cbn [orb] in Ha. rewrite Ha. exact IH.
Qed.

(** X19.  An integer typed in the decimal form that [str] gives is read
    back as itself: when it has no more digits than the interpreter allows
    in a numeral and lies within the bounds, [prompt_int] returns it at
    once. *)
Theorem prompt_int_reads_numerals (n : Z) (rest : list string)
    (minimum maximum : option Z) :
  (count_digits (Py.str_of_int n) <= int_max_str_digits)%Z ->
  below minimum n = false ->
  above maximum n = false ->
  prompt_int (Py.str_of_int n :: rest) minimum maximum = Some (n, rest).
Proof.
  intros Hsize Hlow Hhigh. cbn [prompt_int].
  rewrite strip_str_of_int, (int_str_of_int n Hsize), Hlow, Hhigh. reflexivity.
Qed.

Lemma prompt_int_minimum (answers : list string) (m value : Z)
    (rest : list string) :
  prompt_int answers (Some m) None = Some (value, rest) -> (m <= value)%Z.
Proof.
  intros H. apply prompt_int_returns in H.
  destruct H as (_ & _ & _ & _ & Hlow & _).
  cbn [below] in Hlow. apply Z.ltb_ge in Hlow. exact Hlow.
Qed.

(** X20.  Setting the minimum delay and then the maximum delay leaves a
    configuration whose delays are in order: the minimum is not negative
    and the maximum is above it. *)
Theorem delays_set_in_order (c c1 c2 : Config) (answers rest1 rest2 : list string) :
  set_minimum_delay c answers = Some (c1, rest1) ->
  set_maximum_delay c1 rest1 = Some (c2, rest2) ->
  (0 <= minimum_delay c2 < maximum_delay c2)%Z.
Proof.
  unfold set_minimum_delay, set_maximum_delay. intros H1 H2.
  destruct (prompt_int answers (Some 0%Z) None) as [ [v1 r1] | ] eqn:E1;
    [ | discriminate H1 ].
  injection H1 as <- <-.
  cbn [with_minimum_delay minimum_delay] in H2.
  destruct (prompt_int r1 (Some (v1 + 1)%Z) None) as [ [v2 r2] | ] eqn:E2;
    [ | discriminate H2 ].
  injection H2 as <- <-.
  cbn [with_maximum_delay with_minimum_delay minimum_delay maximum_delay].
  apply prompt_int_minimum in E1. apply prompt_int_minimum in E2. lia.
Qed.

(** X21.  [set_minimum_delay] does not look at the maximum delay: it takes
    every integer that is not negative (and that a numeral can hold) and
    leaves the maximum as it was, so a minimum above the maximum is stored. *)
Theorem minimum_delay_may_pass_maximum (c : Config) (n : Z) (rest : list string) :
  (count_digits (Py.str_of_int n) <= int_max_str_digits)%Z ->
  (0 <= n)%Z ->
  (maximum_delay c < n)%Z ->
  exists c',
    set_minimum_delay c (Py.str_of_int n :: rest) = Some (c', rest) /\
    minimum_delay c' = n /\
    maximum_delay c' = maximum_delay c /\
    (maximum_delay c' < minimum_delay c')%Z.
Proof.
  intros Hsize Hn Hmax. exists (with_minimum_delay c n).
  unfold set_minimum_delay.
  rewrite (prompt_int_accepts (Py.str_of_int n) rest (Some 0%Z) None n).
  - cbn [with_minimum_delay minimum_delay maximum_delay].
    repeat split. exact Hmax.
  - rewrite strip_str_of_int. apply int_str_of_int, Hsize.
  - cbn [below]. apply Z.ltb_ge. exact Hn.
  - reflexivity.
Qed.

Lemma index_menu (n : Z) (action : Action) :
  index menu_items (n - 1) = Some action <->
  ((1 <= n <= 11)%Z /\ nth_error menu_items (Z.to_nat (n - 1)) = Some action) \/
  ((-10 <= n <= 0)%Z /\ nth_error menu_items (Z.to_nat (n + 10)) = Some action).
Proof.
  unfold index. change (Z.of_nat (List.length menu_items)) with 11%Z.
  destruct (Z.leb_spec 0 (n - 1)) as [ Hpos | Hneg ].
  - split.
    + intros H. left. split; [ | exact H ].
      assert (Hlt : (Z.to_nat (n - 1) < List.length menu_items)%nat)
        by (apply nth_error_Some; rewrite H; discriminate).
      change (List.length menu_items) with 11%nat in Hlt. lia.
    + intros [ [_ H] | [Hn _] ]; [ exact H | lia ].
  - destruct (Z.leb_spec (Z.opp 11) (n - 1)) as [ Hin | Hout ].
    + replace (11 + (n - 1))%Z with (n + 10)%Z by lia. split.
      * intros H. right. split; [ lia | exact H ].
      * intros [ [Hn _] | [_ H] ]; [ lia | exact H ].
    + split; [ discriminate | ].
      intros [ [Hn _] | [Hn _] ]; lia.
Qed.

(** X22.  For an answer typed in ASCII: the menu leaves only on the answer
    [0] itself.  Any other numeral is used as a Python index into the menu:
    1 to 11 call the entries in their order, and 0 written otherwise (as
    [00]) and the numbers down to -10 call the entries counted from the end,
    so that [00] runs pagodo; every other answer is invalid. *)
Theorem choose_dispatch (line : string) :
  ascii_text line ->
  (choose line = Exit <-> Py.strip line = "0") /\
  (forall action,
     choose line = Call action <->
     Py.strip line <> "0" /\
     exists n,
       int (Py.strip line) = Some n /\
       (((1 <= n <= 11)%Z /\
         nth_error menu_items (Z.to_nat (n - 1)) = Some action) \/
        ((-10 <= n <= 0)%Z /\
         nth_error menu_items (Z.to_nat (n + 10)) = Some action))).
Proof.
  intros _. unfold choose.
  destruct (String.eqb_spec (Py.strip line) "0") as [ E | E ].
  - split; [ tauto | ].
    intros action. split; [ discriminate | tauto ].
  - split.
    + split; [ | contradiction ].
      destruct (int (Py.strip line)) as [ n | ]; [ | discriminate ].
      destruct (index menu_items (n - 1)); discriminate.
    + intros action. destruct (int (Py.strip line)) as [ n | ].
      * destruct (index menu_items (n - 1)) as [ a | ] eqn:Ei.
        -- split.
           ++ intros H. injection H as ->. split; [ exact E | ].
              exists n. split; [ reflexivity | ]. apply index_menu, Ei.
           ++ intros (_ & m & Hm & Hcase). injection Hm as <-.
              apply index_menu in Hcase. congruence.
        -- split; [ discriminate | ].
           intros (_ & m & Hm & Hcase). injection Hm as <-.
           apply index_menu in Hcase. congruence.
      * split; [ discriminate | ].
        intros (_ & m & Hm & _). discriminate Hm.
Qed.

End CommandLine.

(** ** The properties at concrete inputs *)

Section AtExamples.

Lemma scrape_ghdb_entries_witness :
  In (1%Z, "Footholds") DorkScraperThread.categories /\
  DorkScraperThread.dict_get
    (DorkScraperThread.category_dict
       (fst (DorkScraperThread.scrape_ghdb MoreExamples.ghdb))) 1 =
  Some {| DorkScraperThread.category_name := "Footholds";
          DorkScraperThread.dorks := ["inurl:admin"; "intitle:index.of"];
          DorkScraperThread.count := 2 |}.
Proof.
  assert (Hin : In (1%Z, "Footholds") DorkScraperThread.categories)
    by (left; reflexivity).
  split; [ exact Hin | ].
  rewrite (scrape_ghdb_entries MoreExamples.ghdb 1 "Footholds" Hin).
  vm_compute. reflexivity.
Defined.

Lemma save_then_load_witness :
  exists content,
    DorkFiles.save_dorks MoreExamples.proxied_window = Some content /\
    PagodoGUI.dorks (DorkFiles.load_dorks Examples.window (Some content)) =
    ["inurl:admin"; "site:x.com ext:sql"].
Proof.
  apply (save_then_load MoreExamples.proxied_window Examples.window).
  - vm_compute. discriminate.
  - repeat (apply Forall_cons; [ vm_compute; reflexivity | ]).
    apply Forall_nil.
  - repeat (apply Forall_cons;
            [ split; [ split; [ discriminate | vm_compute; reflexivity ]
                     | vm_compute; reflexivity ] | ]).
    apply Forall_nil.
Defined.

Lemma loaded_dorks_are_storable_witness :
  PagodoGUI.dorks
    (DorkFiles.load_dorks Examples.window (Some MoreExamples.dork_file)) =
  ["inurl:admin"; "ext:sql"] /\
  exists written,
    DorkFiles.save_dorks
      (DorkFiles.load_dorks Examples.window (Some MoreExamples.dork_file))
    = Some written /\
    DorkFiles.load_dorks Examples.window (Some written) =
    DorkFiles.load_dorks Examples.window (Some MoreExamples.dork_file).
Proof.
  split; [ vm_compute; reflexivity | ].
  apply (proj2 (loaded_dorks_are_storable Examples.window
                  MoreExamples.dork_file)).
  vm_compute. discriminate.
Defined.

Lemma started_search_uses_proxies_witness :
  exists self' thread,
    PagodoGUI.start_search MoreExamples.proxied_window
    = PagodoGUI.Started self' thread /\
    DorkSearchThread.proxies thread = ["http://p0:8080"; "socks5://p1:9050"].
Proof.
  destruct (PagodoGUI.start_search MoreExamples.proxied_window)
    as [ title message | self' thread ] eqn:E;
    [ vm_compute in E; discriminate E | ].
  exists self', thread. split; [ reflexivity | ].
  rewrite (proj1 (started_search_uses_proxies _ _ _ E)).
  vm_compute. reflexivity.
Defined.

Lemma filter_database_urls_settles_witness :
  PagodoGUI.filter_database_urls MoreExamples.proxied_window
  = MoreExamples.proxied_window.
Proof.
  apply (proj1 (filter_database_urls_settles MoreExamples.proxied_window)).
  apply NoDup_cons;
    [ cbn; intros [ H | [] ]; discriminate H
    | apply NoDup_cons; [ intros [] | apply NoDup_nil ] ].
Defined.

Lemma started_search_finishes_witness :
  exists self' thread,
    PagodoGUI.start_search Examples.window = PagodoGUI.Started self' thread /\
    existsb DorkSearchThread.is_error
      (DorkSearchThread.run Examples.stop_after_first thread) = false.
Proof.
  destruct (PagodoGUI.start_search Examples.window)
    as [ title message | self' thread ] eqn:E;
    [ vm_compute in E; discriminate E | ].
  exists self', thread. split; [ reflexivity | ].
  exact (proj1 (started_search_finishes Examples.window self' thread
                  Examples.stop_after_first E)).
Defined.

Lemma prompt_int_first_accepted_witness :
  PagodoCLI.prompt_int ["x"; "-1"; " 5 "; "7"] (Some 0%Z) (Some 9%Z)
  = Some (5%Z, ["7"]).
Proof.
  apply (proj2 (prompt_int_first_accepted ["x"; "-1"; " 5 "; "7"]
                  (Some 0%Z) (Some 9%Z) 5 ["7"]
                  ltac:(repeat (apply Forall_cons;
                                [ vm_compute; reflexivity | ]);
                        apply Forall_nil))).
  exists ["x"; "-1"], " 5 ".
  split; [ reflexivity | ].
  split; [ vm_compute; reflexivity | ].
  split; [ reflexivity | ].
  split; [ reflexivity | ].
  apply Forall_cons; [ vm_compute; exact I | ].
  apply Forall_cons; [ vm_compute; reflexivity | apply Forall_nil ].
Defined.

Lemma prompt_int_reads_numerals_witness :
  PagodoCLI.prompt_int [Py.str_of_int 42; "x"] (Some 1%Z) (Some 100%Z)
  = Some (42%Z, ["x"]).
Proof.
  apply prompt_int_reads_numerals; [ vm_compute; discriminate | reflexivity .. ].
Defined.

Lemma delays_set_in_order_witness :
  PagodoCLI.set_minimum_delay PagodoCLI.default_config ["5"; "3"; "9"]
  = Some (PagodoCLI.with_minimum_delay PagodoCLI.default_config 5, ["3"; "9"]) /\
  PagodoCLI.set_maximum_delay
    (PagodoCLI.with_minimum_delay PagodoCLI.default_config 5) ["3"; "9"]
  = Some (PagodoCLI.with_maximum_delay
            (PagodoCLI.with_minimum_delay PagodoCLI.default_config 5) 9, []) /\
  (0 <= PagodoCLI.minimum_delay
          (PagodoCLI.with_maximum_delay
             (PagodoCLI.with_minimum_delay PagodoCLI.default_config 5) 9)
     < PagodoCLI.maximum_delay
         (PagodoCLI.with_maximum_delay
            (PagodoCLI.with_minimum_delay PagodoCLI.default_config 5) 9))%Z.
Proof.
  assert (H1 : PagodoCLI.set_minimum_delay PagodoCLI.default_config
                 ["5"; "3"; "9"]
               = Some (PagodoCLI.with_minimum_delay PagodoCLI.default_config 5,
                       ["3"; "9"])) by (vm_compute; reflexivity).
  assert (H2 : PagodoCLI.set_maximum_delay
                 (PagodoCLI.with_minimum_delay PagodoCLI.default_config 5)
                 ["3"; "9"]
               = Some (PagodoCLI.with_maximum_delay
                         (PagodoCLI.with_minimum_delay
                            PagodoCLI.default_config 5) 9, []))
    by (vm_compute; reflexivity).
  split; [ exact H1 | split; [ exact H2 | ] ].
  exact (delays_set_in_order _ _ _ _ _ _ H1 H2).
Defined.

Lemma minimum_delay_may_pass_maximum_witness :
  exists c',
    PagodoCLI.set_minimum_delay PagodoCLI.default_config [Py.str_of_int 90]
    = Some (c', []) /\
    PagodoCLI.minimum_delay c' = 90%Z /\
    PagodoCLI.maximum_delay c' = PagodoCLI.maximum_delay PagodoCLI.default_config /\
    (PagodoCLI.maximum_delay c' < PagodoCLI.minimum_delay c')%Z.
Proof.
  apply (minimum_delay_may_pass_maximum PagodoCLI.default_config 90 []);
    [ vm_compute; discriminate | cbn; lia .. ].
Defined.

Lemma choose_dispatch_witness :
  PagodoCLI.choose "00" = PagodoCLI.Call PagodoCLI.run_pagodo.
Proof.
  apply (proj2 (proj2 (choose_dispatch "00" ltac:(vm_compute; reflexivity))
                 PagodoCLI.run_pagodo)).
  split; [ vm_compute; discriminate | ].
  exists 0%Z. split; [ vm_compute; reflexivity | ].
  right. split; [ lia | reflexivity ].
Defined.

End AtExamples.
